(** * useMultiPlatformPost: the multi-platform posting hook

    A shallow embedding of [src/hooks/form/useMultiPlatformPost.ts].

    The hook posts one piece of content to a list of platforms, one platform
    after the other, and publishes its progress through React state cells.
    The embedding keeps four things apart, as the source does:

    - the platform clients ([linkedInApi], [xApi], [substackApi]) and
      [localStorage], which live outside the file: they are an interface
      ([PlatformApis]) over an arbitrary [World];
    - the callbacks of the caller ([onSuccess], [onError],
      [onPartialSuccess]): functions over the same [World] that return or
      throw, called where the source calls them, so that what they throw is
      caught, or not, by the [try] blocks around the call;
    - the asynchronous body of [submitMultiPlatformPost], written in a small
      monad [Js] with exceptions ([throw], [try_catch], [finally]) that logs
      every observable action as an [Event];
    - the state the hook owns: the [useState] cells, shared by every
      invocation of the hook, and the plain local [abortController], of which
      every invocation of the hook function has its own.

    Numbers are IEEE 754 doubles where the source computes with fractions
    (the progress formula); text that is trimmed is a sequence of UTF-16
    code units.  A callback is taken to leave the array or response it is
    handed as it is. *)

From Stdlib Require Import String Ascii List ZArith NArith Bool Lia.
From Stdlib Require Import DecimalString.
From Stdlib Require Floats.PrimFloat Floats.SpecFloat Floats.FloatOps.
From Stdlib Require Numbers.Cyclic.Int63.Uint63.
Import ListNotations.

Local Open Scope string_scope.
Local Open Scope list_scope.

(** ** JavaScript values the hook relies on *)

Module JsValue.

(** [x || d] on an optional string: the empty string is falsy. *)
Definition truthy (s : option string) : bool :=
  match s with
  | Some EmptyString => false
  | Some _ => true
  | None => false
  end.

Definition or_else (s : option string) (d : string) : string :=
  match s with
  | Some EmptyString => d
  | Some v => v
  | None => d
  end.

(** [n || d] on an optional number: [0] is falsy. *)
Definition num_or_else (n : option Z) (d : Z) : Z :=
  match n with
  | Some 0%Z => d
  | Some v => v
  | None => d
  end.

(** [b || false] on an optional boolean. *)
Definition bool_or_false (b : option bool) : bool :=
  match b with
  | Some v => v
  | None => false
  end.

(** Template-literal rendering of a non-negative integer. *)
Definition string_of_nat (n : nat) : string :=
  NilEmpty.string_of_uint (Nat.to_uint n).

(** [arr.join(sep)]. *)
Fixpoint join (sep : string) (l : list string) : string :=
  match l with
  | [] => ""
  | [x] => x
  | x :: rest => (x ++ sep ++ join sep rest)%string
  end.

(** A string as JavaScript holds it: its UTF-16 code units. *)
Definition Text := list N.

(** The code units of an ASCII literal. *)
Definition code_units (s : string) : Text :=
  map N_of_ascii (list_ascii_of_string s).

(** White space and line terminators of ECMAScript, which
    [String.prototype.trim] removes: TAB, LF, VT, FF, CR, SP, NBSP, the
    other space separators of Unicode (U+1680, U+2000 to U+200A, U+202F,
    U+205F, U+3000), LS, PS and the byte order mark. *)
Definition white_space : list N :=
  [9; 10; 11; 12; 13; 32; 160; 5760;
   8192; 8193; 8194; 8195; 8196; 8197; 8198; 8199; 8200; 8201; 8202;
   8232; 8233; 8239; 8287; 12288; 65279]%N.

Definition is_white_space (c : N) : bool := existsb (N.eqb c) white_space.

Fixpoint trim_start (s : Text) : Text :=
  match s with
  | c :: rest => if is_white_space c then trim_start rest else s
  | [] => []
  end.

Definition trim_end (s : Text) : Text := rev (trim_start (rev s)).

Definition trim (s : Text) : Text := trim_end (trim_start s).

(** The Number of an array length. *)
Definition number_of_nat (n : nat) : PrimFloat.float :=
  PrimFloat.of_uint63 (Uint63.of_Z (Z.of_nat n)).

(** [Math.round] on a double: the nearest integer, a half rounded up.  The
    double [m * 2^e] is rounded exactly; the hook applies it to finite
    values only (infinities and NaN are given 0 here). *)
Definition Math_round (x : PrimFloat.float) : Z :=
  match FloatOps.Prim2SF x with
  | SpecFloat.S754_finite negative m e =>
      let n := if negative then Z.neg m else Z.pos m in
      match e with
      | Z.neg k => ((2 * n + 2 ^ Z.pos k) / (2 * 2 ^ Z.pos k))%Z
      | _ => (n * 2 ^ e)%Z
      end
  | _ => 0%Z
  end.

(** A value that reaches a [catch]: an [Error] with its message, or any
    other thrown value (a string, a plain object a client rejects with)
    with the [message] property it may have. *)
Inductive Thrown : Type :=
| ErrorObj (message : string)
| NonError (message : option string).

(** How a call ends: it returns a value or throws one. *)
Inductive Completion (A : Type) : Type :=
| Normal (a : A)
| Throw (e : Thrown).
Arguments Normal {A} a.
Arguments Throw {A} e.

(** Substring: [needle] occurs in [hay]. *)
Definition occurs_in (needle hay : string) : Prop :=
  exists before after, hay = (before ++ needle ++ after)%string.

End JsValue.
Import JsValue.

(** ** Types of [@/types/api], by the fields the hook reads and writes *)

Definition Platform := string.

Inductive MediaType : Type := TEXT | IMAGE | VIDEO.

(** The [File] object of a post; only its identity matters here. *)
Definition Media := string.

Record PostContent : Type := {
  text : Text;
  media : option Media;
  mediaType : option MediaType
}.

Module ArticleData.
Record t : Type := {
  url : string;
  title : string;
  description : option string
}.
End ArticleData.

Record LinkedInOptions : Type := {
  visibility : option string;
  articleData : option ArticleData.t
}.

Record SubstackOptions : Type := {
  title : option string;
  subtitle : option string;
  isDraft : option bool
}.

Record PlatformSpecificOptions : Type := {
  linkedin : option LinkedInOptions;
  substack : option SubstackOptions
}.

Record MultiPlatformPostRequest : Type := {
  platforms : list Platform;
  content : PostContent;
  platformSpecific : PlatformSpecificOptions
}.

(** What a platform client resolves with. *)
Record ApiResponse : Type := {
  api_success : bool;
  api_data : option string;
  api_message : option string
}.

Record UploadResponse : Type := {
  upload_success : bool;
  upload_assetUrn : option string;
  upload_message : option string
}.

Record PlatformPostResult : Type := {
  platform : Platform;
  success : bool;
  data : option ApiResponse;
  error : option string
}.

Record MultiPlatformPostResponse : Type := {
  resp_success : bool;
  resp_results : list PlatformPostResult;
  resp_message : string
}.

(** Request payloads built for the clients. *)
Record MediaItem : Type := {
  item_assetUrn : string;
  item_title : string;
  item_description : string
}.

Record CreatePostRequest : Type := {
  cp_text : Text;
  cp_visibility : string;
  cp_mediaType : option MediaType;
  cp_media : option (list MediaItem);
  cp_articleUrl : option string;
  cp_articleTitle : option string;
  cp_articleDescription : option string
}.

Record CreateTweetRequest : Type := {
  tw_text : Text;
  tw_media : option Media
}.

Record CreateSubstackPostRequest : Type := {
  ss_title : string;
  ss_subtitle : option string;
  ss_content : Text;
  ss_isDraft : bool
}.

(** A callback of the caller: called with [A] it returns or throws, and
    may act on the world. *)
Definition Callback (World A : Type) : Type :=
  A -> World -> Completion unit * World.

(** Lines 14-19; an absent callback is [None]. *)
Record UseMultiPlatformPostOptions (World : Type) : Type := {
  onSuccess : option (Callback World MultiPlatformPostResponse);
  onError : option (Callback World string);
  onPartialSuccess : option (Callback World (list PlatformPostResult));
  requestDelay : option Z
}.
Arguments onSuccess {World} _.
Arguments onError {World} _.
Arguments onPartialSuccess {World} _.
Arguments requestDelay {World} _.

(** ** The platform clients *)

(** An awaited promise resolves with a value or rejects with a thrown one. *)
Inductive Settled (A : Type) : Type :=
| Resolved (a : A)
| Rejected (e : Thrown).
Arguments Resolved {A} a.
Arguments Rejected {A} e.

Record PlatformApis (World : Type) : Type := {
  linkedInApi_uploadMedia :
    Media -> string -> string -> World -> Settled UploadResponse * World;
  linkedInApi_createPost :
    CreatePostRequest -> World -> Settled ApiResponse * World;
  xApi_createTweet :
    CreateTweetRequest -> World -> Settled ApiResponse * World;
  substackApi_createPost :
    string -> CreateSubstackPostRequest -> World -> Settled ApiResponse * World;
  localStorage_getItem : string -> World -> option string
}.
Arguments linkedInApi_uploadMedia {World} _ _ _ _ _.
Arguments linkedInApi_createPost {World} _ _ _.
Arguments xApi_createTweet {World} _ _ _.
Arguments substackApi_createPost {World} _ _ _ _.
Arguments localStorage_getItem {World} _ _ _.

(** ** Observable actions *)

Record AbortController : Type := { aborted : bool }.

Inductive TimerAction : Type :=
| ClearPostSuccess     (* () => setPostSuccess(false) *)
| ClearPostError.      (* () => setPostError(null) *)

Inductive Event : Type :=
| SetIsPosting (b : bool)
| SetPostError (e : option string)
| SetPostSuccess (b : bool)
| SetUploadProgress (p : Z)
| SetCurrentPlatforms (ps : list Platform)
| SetResults (rs : list PlatformPostResult)
| AssignAbortController (c : option AbortController)
| Sleep (ms : Z)
| CallUploadMedia (m : Media) (ttl dsc : string)
| CallLinkedInCreatePost (d : CreatePostRequest)
| CallCreateTweet (d : CreateTweetRequest)
| CallSubstackCreatePost (sessionId : string) (d : CreateSubstackPostRequest)
| ConsoleError (label : string) (e : Thrown)
| OnSuccess (r : MultiPlatformPostResponse)
| OnError (msg : string)
| OnPartialSuccess (rs : list PlatformPostResult)
| SetTimeout (action : TimerAction) (ms : Z).

(** ** The monad of the asynchronous body *)

Definition Js (World A : Type) : Type :=
  World -> list Event * Completion A * World.

Module JsMonad.

Definition ret {W A} (a : A) : Js W A := fun w => ([], Normal a, w).

Definition bind {W A B} (m : Js W A) (k : A -> Js W B) : Js W B :=
  fun w =>
    match m w with
    | (t1, Normal a, w1) =>
        match k a w1 with
        | (t2, c, w2) => (t1 ++ t2, c, w2)
        end
    | (t1, Throw e, w1) => (t1, Throw e, w1)
    end.

Definition throw {W A} (e : Thrown) : Js W A := fun w => ([], Throw e, w).

Definition emit {W} (e : Event) : Js W unit := fun w => ([e], Normal tt, w).

Definition when {W} (b : bool) (m : Js W unit) : Js W unit :=
  if b then m else ret tt.

(** [try { m } catch (error) { h error }] *)
Definition try_catch {W A} (m : Js W A) (h : Thrown -> Js W A) : Js W A :=
  fun w =>
    match m w with
    | (t1, Normal a, w1) => (t1, Normal a, w1)
    | (t1, Throw e, w1) =>
        match h e w1 with
        | (t2, c, w2) => (t1 ++ t2, c, w2)
        end
    end.

(** [try { m } finally { f }], for a [finally] block that completes
    normally: the completion of [m] is kept. *)
Definition finally {W A} (m : Js W A) (f : Js W unit) : Js W A :=
  fun w =>
    match m w with
    | (t1, c, w1) =>
        match f w1 with
        | (t2, _, w2) => (t1 ++ t2, c, w2)
        end
    end.

(** [await call]: the client's answer, a rejection being rethrown. *)
Definition await {W A} (issued : Event)
    (call : W -> Settled A * W) : Js W A :=
  fun w =>
    match call w with
    | (Resolved a, w1) => ([issued], Normal a, w1)
    | (Rejected e, w1) => ([issued], Throw e, w1)
    end.

Definition read {W A} (f : W -> A) : Js W A := fun w => ([], Normal (f w), w).

(** [callback(a)]: the call is noted, and what the callback throws is
    thrown at the place of the call. *)
Definition invoke {W A} (noted : Event) (callback : Callback W A) (a : A)
    : Js W unit :=
  fun w =>
    match callback a w with
    | (c, w1) => ([noted], c, w1)
    end.

(** [callback?.(a)] *)
Definition invoke_if_given {W A} (noted : Event)
    (callback : option (Callback W A)) (a : A) : Js W unit :=
  match callback with
  | Some f => invoke noted f a
  | None => ret tt
  end.

(** A block that mutates a local variable of type [S] (an array it
    pushes to) runs over the world paired with the variable, so that a
    [catch] finds the variable as the [try] left it. *)
Definition lift {W S A} (m : Js W A) : Js (S * W) A :=
  fun sw =>
    match m (snd sw) with
    | (t, c, w1) => (t, c, (fst sw, w1))
    end.

Definition local {W S} : Js (S * W) S :=
  fun sw => ([], Normal (fst sw), sw).

Definition update {W S} (f : S -> S) : Js (S * W) unit :=
  fun sw => ([], Normal tt, (f (fst sw), snd sw)).

(** Run [m] with the variable holding [s]; the variable's last value is
    returned along. *)
Definition block {W S A} (s : S) (m : Js (S * W) A) : Js W (A * S) :=
  fun w =>
    match m (s, w) with
    | (t, Normal a, sw) => (t, Normal (a, fst sw), snd sw)
    | (t, Throw e, sw) => (t, Throw e, snd sw)
    end.

End JsMonad.
Import JsMonad.

Declare Scope js_scope.
Delimit Scope js_scope with js.
Notation "x <- m ;; k" := (bind m (fun x => k))
  (at level 61, m at next level, right associativity) : js_scope.
Notation "m ;;; k" := (bind m (fun _ => k))
  (at level 61, right associativity) : js_scope.

Local Open Scope js_scope.

(** ** [submitMultiPlatformPost] *)

Module Submit.

Definition substack_title (ps : PlatformSpecificOptions) : option string :=
  match substack ps with
  | Some s => title s
  | None => None
  end.

(** Lines 48-56: the request is checked before anything is sent. *)
Fixpoint check_titles {W} (ps : PlatformSpecificOptions)
    (l : list Platform) : Js W unit :=
  match l with
  | [] => ret tt
  | p :: rest =>
      if (p =? "substack")%string && negb (truthy (substack_title ps))
      then throw (ErrorObj "Substack posts require a title")
      else check_titles ps rest
  end.

Definition validate {W} (request : MultiPlatformPostRequest) : Js W unit :=
  if (length (platforms request) =? 0)%nat
  then throw (ErrorObj "At least one platform must be selected")
  else check_titles (platformSpecific request) (platforms request).

(** [`${content.mediaType === "IMAGE" ? "Image" : "Video"}`] *)
Definition media_word (c : PostContent) : string :=
  match mediaType c with
  | Some IMAGE => "Image"
  | _ => "Video"
  end.

Definition media_title (c : PostContent) : string :=
  (media_word c ++ " from Auto-Post App")%string.

Definition media_description (c : PostContent) : string :=
  (media_word c ++ " uploaded via Auto-Post application")%string.

Definition is_image_or_video (c : PostContent) : bool :=
  match mediaType c with
  | Some IMAGE | Some VIDEO => true
  | _ => false
  end.

(** Lines 77-96: the media upload that precedes a LinkedIn post. *)
Definition upload_linkedin_media {W} (apis : PlatformApis W)
    (c : PostContent) : Js W (option string) :=
  match media c with
  | Some file =>
      if is_image_or_video c then
        uploadResponse <-
          await (CallUploadMedia file (media_title c) (media_description c))
                (linkedInApi_uploadMedia apis file (media_title c)
                   (media_description c)) ;;
        if upload_success uploadResponse
           && truthy (upload_assetUrn uploadResponse)
        then ret (upload_assetUrn uploadResponse)
        else throw (ErrorObj (or_else (upload_message uploadResponse)
                                "Failed to upload media"))
      else ret None
  | None => ret None
  end.

(** Lines 98-121. *)
Definition linkedinData (c : PostContent) (ps : PlatformSpecificOptions)
    (mediaAssetUrn : option string) : CreatePostRequest :=
  let article :=
    match linkedin ps with
    | Some l => articleData l
    | None => None
    end in
  {| cp_text := trim (text c);
     cp_visibility :=
       or_else (match linkedin ps with
                | Some l => visibility l
                | None => None
                end) "PUBLIC";
     cp_mediaType :=
       match mediaType c with
       | Some TEXT => None
       | other => other
       end;
     cp_media :=
       match mediaAssetUrn with
       | Some urn =>
           Some [ {| item_assetUrn := urn;
                     item_title := media_title c;
                     item_description := media_description c |} ]
       | None => None
       end;
     cp_articleUrl := option_map ArticleData.url article;
     cp_articleTitle := option_map ArticleData.title article;
     cp_articleDescription :=
       match article with
       | Some a =>
           if truthy (ArticleData.description a)
           then ArticleData.description a
           else None
       | None => None
       end |}.

(** The [PlatformPostResult] made of a client's response. *)
Definition result_of_response (p : Platform) (response : ApiResponse)
    : PlatformPostResult :=
  {| platform := p;
     success := api_success response;
     data := Some response;
     error := if api_success response then None else api_message response |}.

Definition post_to_linkedin {W} (apis : PlatformApis W)
    (request : MultiPlatformPostRequest) : Js W PlatformPostResult :=
  mediaAssetUrn <- upload_linkedin_media apis (content request) ;;
  let d := linkedinData (content request) (platformSpecific request)
             mediaAssetUrn in
  response <- await (CallLinkedInCreatePost d)
                    (linkedInApi_createPost apis d) ;;
  ret (result_of_response "linkedin" response).

(** Lines 133-147. *)
Definition tweetData (c : PostContent) : CreateTweetRequest :=
  {| tw_text := trim (text c); tw_media := media c |}.

Definition post_to_x {W} (apis : PlatformApis W)
    (request : MultiPlatformPostRequest) : Js W PlatformPostResult :=
  let d := tweetData (content request) in
  response <- await (CallCreateTweet d) (xApi_createTweet apis d) ;;
  ret (result_of_response "x" response).

(** Lines 149-177. *)
Definition substackData (c : PostContent) (s : SubstackOptions)
    : CreateSubstackPostRequest :=
  {| ss_title := or_else (title s) "";
     ss_subtitle := subtitle s;
     ss_content := trim (text c);
     ss_isDraft := bool_or_false (isDraft s) |}.

Definition post_to_substack {W} (apis : PlatformApis W)
    (request : MultiPlatformPostRequest) : Js W PlatformPostResult :=
  match substack (platformSpecific request) with
  | Some s =>
      if truthy (title s) then
        sessionId <- read (localStorage_getItem apis "substackSessionId") ;;
        if truthy sessionId then
          let d := substackData (content request) s in
          let sid := or_else sessionId "" in
          response <- await (CallSubstackCreatePost sid d)
                            (substackApi_createPost apis sid d) ;;
          ret (result_of_response "substack" response)
        else throw (ErrorObj "Substack session not found")
      else throw (ErrorObj "Substack title is required")
  | None => throw (ErrorObj "Substack title is required")
  end.

(** Lines 75-181: the [switch] on the platform tag. *)
Definition post_to {W} (apis : PlatformApis W)
    (request : MultiPlatformPostRequest) (p : Platform)
    : Js W PlatformPostResult :=
  if (p =? "linkedin")%string then post_to_linkedin apis request
  else if (p =? "x")%string then post_to_x apis request
  else if (p =? "substack")%string then post_to_substack apis request
  else throw (ErrorObj ("Unsupported platform: " ++ p)%string).

(** Lines 186-188: [Math.round((results.length / platforms.length) * 90) + 10],
    the quotient and the product being those of doubles. *)
Definition progress_after (completed total : nat) : Z :=
  (Math_round
     (PrimFloat.mul
        (PrimFloat.div (number_of_nat completed) (number_of_nat total))
        (number_of_nat 90))
   + 10)%Z.

(** Lines 199-206: the result recorded for a platform whose turn threw. *)
Definition errorResult (p : Platform) (e : Thrown) : PlatformPostResult :=
  {| platform := p;
     success := false;
     data := None;
     error := Some match e with
                   | ErrorObj message => message
                   | NonError _ => ("Failed to post to " ++ p)%string
                   end |}.

(** Line 61. *)
Definition delay {W} (options : UseMultiPlatformPostOptions W) : Z :=
  num_or_else (requestDelay options) 2000.

(** [results.push(r)] *)
Definition push {W} (r : PlatformPostResult)
    : Js (list PlatformPostResult * W) unit :=
  update (fun results => results ++ [r]).

(** Lines 194-196: the caller is told of a platform that succeeded. *)
Definition notify {W} (options : UseMultiPlatformPostOptions W)
    (result : PlatformPostResult) (results : list PlatformPostResult)
    : Js W unit :=
  match onPartialSuccess options with
  | Some callback =>
      when (success result) (invoke (OnPartialSuccess results) callback results)
  | None => ret tt
  end.

(** Lines 65-209: one turn of the loop, for platform number [i], on the
    results array as it is; it returns the array as the turn leaves it.
    The [catch] pushes to the array as the [try] left it: with what the
    [try] pushed, when it is the caller's callback that threw. *)
Definition iteration {W} (apis : PlatformApis W)
    (options : UseMultiPlatformPostOptions W)
    (request : MultiPlatformPostRequest)
    (i : nat) (p : Platform) (results : list PlatformPostResult)
    : Js W (list PlatformPostResult) :=
  out <- block results
    (try_catch
       (lift (when (0 <? i)%nat (emit (Sleep (delay options)))) ;;;
        result <- lift (post_to apis request p) ;;
        push result ;;;
        results <- local ;;
        lift (emit (SetUploadProgress
                      (progress_after (length results)
                                      (length (platforms request))))) ;;;
        lift (emit (SetResults results)) ;;;
        lift (notify options result results))
       (fun error =>
          lift (emit (ConsoleError ("Error posting to " ++ p ++ ":")%string
                        error)) ;;;
          push (errorResult p error) ;;;
          results <- local ;;
          lift (emit (SetResults results)))) ;;
  ret (snd out).

(** Lines 64-210: the loop from index [i] on. *)
Fixpoint dispatch {W} (apis : PlatformApis W)
    (options : UseMultiPlatformPostOptions W)
    (request : MultiPlatformPostRequest)
    (i : nat) (todo : list Platform) (results : list PlatformPostResult)
    : Js W (list PlatformPostResult) :=
  match todo with
  | [] => ret results
  | p :: rest =>
      results <- iteration apis options request i p results ;;
      dispatch apis options request (S i) rest results
  end.

(** [p.error] as [join] renders it: [undefined] gives the empty string. *)
Definition error_text (r : PlatformPostResult) : string :=
  match error r with
  | Some m => m
  | None => ""
  end.

Definition total_failure_message (failedPosts : list PlatformPostResult)
    : string :=
  ("Failed to post to all platforms: "
     ++ join ", " (map error_text failedPosts))%string.

(** Lines 214-229. *)
Definition build_response (request : MultiPlatformPostRequest)
    (results : list PlatformPostResult) : MultiPlatformPostResponse :=
  let successfulPosts := filter success results in
  let failedPosts := filter (fun r => negb (success r)) results in
  {| resp_success := (length failedPosts =? 0)%nat;
     resp_results :=
       map (fun r => {| platform := platform r; success := success r;
                        data := data r; error := error r |}) results;
     resp_message :=
       if (length failedPosts =? 0)%nat
       then ("Successfully posted to all "
               ++ string_of_nat (length successfulPosts)
               ++ " platform(s)!")%string
       else ("Posted to " ++ string_of_nat (length successfulPosts) ++ "/"
               ++ string_of_nat (length (platforms request))
               ++ " platform(s). "
               ++ string_of_nat (length failedPosts) ++ " failed.")%string |}.

(** Lines 212-246: what follows the loop, inside the outer [try]. *)
Definition conclude {W} (options : UseMultiPlatformPostOptions W)
    (request : MultiPlatformPostRequest) (results : list PlatformPostResult)
    : Js W MultiPlatformPostResponse :=
  emit (SetUploadProgress 100) ;;;
  let successfulPosts := filter success results in
  let failedPosts := filter (fun r => negb (success r)) results in
  let response := build_response request results in
  (if resp_success response then
     emit (SetPostSuccess true) ;;;
     invoke_if_given (OnSuccess response) (onSuccess options) response
   else if (0 <? length successfulPosts)%nat then
     invoke_if_given (OnPartialSuccess results) (onPartialSuccess options)
       results
   else throw (ErrorObj (total_failure_message failedPosts))) ;;;
  emit (SetTimeout ClearPostSuccess 5000) ;;;
  ret response.

(** Lines 46-246: the body of the outer [try]. *)
Definition attempt_all {W} (apis : PlatformApis W)
    (options : UseMultiPlatformPostOptions W)
    (request : MultiPlatformPostRequest) : Js W MultiPlatformPostResponse :=
  validate request ;;;
  emit (SetUploadProgress 10) ;;;
  results <- dispatch apis options request 0 (platforms request) [] ;;
  conclude options request results.

Definition errorMessage (e : Thrown) : string :=
  match e with
  | ErrorObj message => message
  | NonError _ => "An unexpected error occurred while posting"
  end.

(** Lines 262-270. *)
Definition failedResponse (request : MultiPlatformPostRequest)
    (msg : string) : MultiPlatformPostResponse :=
  {| resp_success := false;
     resp_results :=
       map (fun p => {| platform := p; success := false;
                        data := None; error := Some msg |})
           (platforms request);
     resp_message := msg |}.

(** Lines 247-272: the outer [catch].  Nothing catches what [onError]
    throws: the promise then rejects with it. *)
Definition recover {W} (options : UseMultiPlatformPostOptions W)
    (request : MultiPlatformPostRequest) (e : Thrown)
    : Js W MultiPlatformPostResponse :=
  emit (ConsoleError "Multi-platform post submission failed:" e) ;;;
  emit (SetPostError (Some (errorMessage e))) ;;;
  invoke_if_given (OnError (errorMessage e)) (onError options)
    (errorMessage e) ;;;
  emit (SetTimeout ClearPostError 10000) ;;;
  ret (failedResponse request (errorMessage e)).

(** Lines 273-277: the [finally] block. *)
Definition cleanup {W} : Js W unit :=
  emit (SetIsPosting false) ;;;
  emit (SetUploadProgress 0) ;;;
  emit (AssignAbortController None).

(** Lines 33-278.  A [Throw] completion is a rejected promise. *)
Definition submitMultiPlatformPost {W} (apis : PlatformApis W)
    (options : UseMultiPlatformPostOptions W)
    (request : MultiPlatformPostRequest) : Js W MultiPlatformPostResponse :=
  emit (SetIsPosting true) ;;;
  emit (SetPostError None) ;;;
  emit (SetPostSuccess false) ;;;
  emit (SetUploadProgress 0) ;;;
  emit (SetCurrentPlatforms (platforms request)) ;;;
  emit (SetResults []) ;;;
  emit (AssignAbortController (Some {| aborted := false |})) ;;;
  finally
    (try_catch (attempt_all apis options request)
               (recover options request))
    cleanup.

End Submit.
Import Submit.
(** ** The state owned by the hook *)

(** The six [useState] cells (lines 24-29).  React keeps them for the
    lifetime of the component and hands them to every invocation of the
    hook. *)
Record HookState : Type := {
  isPosting : bool;
  postSuccess : bool;
  postError : option string;
  uploadProgress : Z;
  currentPlatforms : list Platform;
  results : list PlatformPostResult
}.

(** One invocation of the hook function: the cells, and the local variable
    [abortController] (line 31) that the three functions made by this
    invocation close over. *)
Record Instance : Type := {
  cells : HookState;
  abortController : option AbortController
}.

Module Hook.

Definition mount : HookState :=
  {| isPosting := false; postSuccess := false; postError := None;
     uploadProgress := 0; currentPlatforms := []; results := [] |}.

(** Lines 21-31: calling the hook reads the cells and declares a fresh
    [let abortController = null]. *)
Definition useMultiPlatformPost (st : HookState) : Instance :=
  {| cells := st; abortController := None |}.

Definition setIsPosting (b : bool) (s : HookState) : HookState :=
  {| isPosting := b; postSuccess := postSuccess s; postError := postError s;
     uploadProgress := uploadProgress s;
     currentPlatforms := currentPlatforms s; results := results s |}.

Definition setPostSuccess (b : bool) (s : HookState) : HookState :=
  {| isPosting := isPosting s; postSuccess := b; postError := postError s;
     uploadProgress := uploadProgress s;
     currentPlatforms := currentPlatforms s; results := results s |}.

Definition setPostError (e : option string) (s : HookState) : HookState :=
  {| isPosting := isPosting s; postSuccess := postSuccess s; postError := e;
     uploadProgress := uploadProgress s;
     currentPlatforms := currentPlatforms s; results := results s |}.

Definition setUploadProgress (p : Z) (s : HookState) : HookState :=
  {| isPosting := isPosting s; postSuccess := postSuccess s;
     postError := postError s; uploadProgress := p;
     currentPlatforms := currentPlatforms s; results := results s |}.

Definition setCurrentPlatforms (ps : list Platform) (s : HookState)
    : HookState :=
  {| isPosting := isPosting s; postSuccess := postSuccess s;
     postError := postError s; uploadProgress := uploadProgress s;
     currentPlatforms := ps; results := results s |}.

Definition setResults (rs : list PlatformPostResult) (s : HookState)
    : HookState :=
  {| isPosting := isPosting s; postSuccess := postSuccess s;
     postError := postError s; uploadProgress := uploadProgress s;
     currentPlatforms := currentPlatforms s; results := rs |}.

Definition with_cells (f : HookState -> HookState) (h : Instance)
    : Instance :=
  {| cells := f (cells h); abortController := abortController h |}.

(** What an action of a run does to the hook, the run having been started
    through the functions of invocation [h]. *)
Definition perform (h : Instance) (e : Event) : Instance :=
  match e with
  | SetIsPosting b => with_cells (setIsPosting b) h
  | SetPostError m => with_cells (setPostError m) h
  | SetPostSuccess b => with_cells (setPostSuccess b) h
  | SetUploadProgress p => with_cells (setUploadProgress p) h
  | SetCurrentPlatforms ps => with_cells (setCurrentPlatforms ps) h
  | SetResults rs => with_cells (setResults rs) h
  | AssignAbortController c => {| cells := cells h; abortController := c |}
  | _ => h
  end.

Definition replay (h : Instance) (tr : list Event) : Instance :=
  fold_left perform tr h.

(** Lines 280-287. *)
Definition cancelPosting (h : Instance) : Instance :=
  match abortController h with
  | Some _ =>
      {| cells :=
           setPostError (Some "Posting cancelled by user")
             (setUploadProgress 0 (setIsPosting false (cells h)));
         abortController := Some {| aborted := true |} |}
  | None => h
  end.

(** Lines 289-295. *)
Definition resetState (h : Instance) : Instance :=
  with_cells
    (fun s => setCurrentPlatforms []
                (setResults []
                  (setUploadProgress 0
                    (setPostError None (setPostSuccess false s))))) h.

(** The timers of lines 242-244 and 258-260, when they fire. *)
Definition fire (a : TimerAction) (s : HookState) : HookState :=
  match a with
  | ClearPostSuccess => setPostSuccess false s
  | ClearPostError => setPostError None s
  end.

(** The component renders again: the hook function is called anew on the
    cells as they are now. *)
Definition rerender (h : Instance) : Instance :=
  useMultiPlatformPost (cells h).

(** A run whose trace is [tr], with [cancelPosting] of the same invocation
    called once [at_] actions of the run have happened.  The body of
    [submitMultiPlatformPost] reads neither the cells nor the controller
    and hands the controller's signal to no client, so the actions of the
    run are the same whether or not [cancelPosting] is called in between. *)
Definition replay_cancelled (h : Instance) (tr : list Event) (at_ : nat)
    : Instance :=
  replay (cancelPosting (replay h (firstn at_ tr))) (skipn at_ tr).

End Hook.
Import Hook.

(** ** Reading a trace *)

Module Trace.

Definition progress_of (e : Event) : option Z :=
  match e with
  | SetUploadProgress p => Some p
  | _ => None
  end.

Fixpoint filter_map {A B} (f : A -> option B) (l : list A) : list B :=
  match l with
  | [] => []
  | x :: rest =>
      match f x with
      | Some y => y :: filter_map f rest
      | None => filter_map f rest
      end
  end.

(** The values passed to [setUploadProgress], in order. *)
Definition published_progress (tr : list Event) : list Z :=
  filter_map progress_of tr.

Definition results_of (e : Event) : option (list PlatformPostResult) :=
  match e with
  | SetResults rs => Some rs
  | _ => None
  end.

Definition is_network_call (e : Event) : bool :=
  match e with
  | CallUploadMedia _ _ _ | CallLinkedInCreatePost _
  | CallCreateTweet _ | CallSubstackCreatePost _ _ => true
  | _ => false
  end.

Definition sleep_of (e : Event) : option Z :=
  match e with
  | Sleep ms => Some ms
  | _ => None
  end.

(** The pauses of a run, in order. *)
Definition sleeps (tr : list Event) : list Z := filter_map sleep_of tr.

Definition trace_of {W A} (r : list Event * Completion A * W) : list Event :=
  fst (fst r).

Definition completion_of {W A} (r : list Event * Completion A * W)
    : Completion A :=
  snd (fst r).

Definition world_of {W A} (r : list Event * Completion A * W) : W := snd r.

End Trace.
Import Trace.

(** ** Concrete clients and callbacks, for running the model *)

Module Sample.

Definition ok : ApiResponse :=
  {| api_success := true; api_data := Some "{}"; api_message := None |}.

Definition refused (why : string) : ApiResponse :=
  {| api_success := false; api_data := None; api_message := Some why |}.

(** Clients that answer the same way every time. *)
Definition fixed {W} (x li ss : Settled ApiResponse)
    (session : option string) : PlatformApis W :=
  {| linkedInApi_uploadMedia := fun _ _ _ w =>
       (Resolved {| upload_success := true;
                    upload_assetUrn := Some "urn:li:asset:1";
                    upload_message := None |}, w);
     linkedInApi_createPost := fun _ w => (li, w);
     xApi_createTweet := fun _ w => (x, w);
     substackApi_createPost := fun _ _ w => (ss, w);
     localStorage_getItem := fun _ _ => session |}.

Definition all_ok {W} : PlatformApis W :=
  fixed (Resolved ok) (Resolved ok) (Resolved ok) (Some "sid").

(** [useMultiPlatformPost()] called with no options. *)
Definition no_callbacks {W} : UseMultiPlatformPostOptions W :=
  {| onSuccess := None; onError := None; onPartialSuccess := None;
     requestDelay := None |}.

(** A callback that only takes note. *)
Definition noting {W A} : Callback W A := fun _ w => (Normal tt, w).

(** A callback that always throws. *)
Definition throwing {W A} (what : string) : Callback W A :=
  fun _ w => (Throw (ErrorObj what), w).

(** A callback that throws the first time it is called and returns ever
    after; the world records whether it has been called. *)
Definition throwing_once {A} (what : string) : Callback bool A :=
  fun _ called =>
    (if called then Normal tt else Throw (ErrorObj what), true).

Definition plain (t : string) : PostContent :=
  {| text := code_units t; media := None; mediaType := None |}.

Definition no_specific : PlatformSpecificOptions :=
  {| linkedin := None; substack := None |}.

Definition with_title (t : string) : PlatformSpecificOptions :=
  {| linkedin := None;
     substack := Some {| title := Some t; subtitle := None;
                         isDraft := None |} |}.

Definition post (ps : list Platform) : MultiPlatformPostRequest :=
  {| platforms := ps; content := plain "hi";
     platformSpecific := no_specific |}.

End Sample.

(** ** Vocabulary of the statements *)

Module Vocabulary.

(** Is [substack] among the platforms of a request that gives it no
    usable title? *)
Definition substack_untitled (request : MultiPlatformPostRequest) : bool :=
  existsb (fun p => (p =? "substack")%string) (platforms request)
  && negb (truthy (substack_title (platformSpecific request))).

(** The result a platform's attempt leaves in the results array: the one
    it built, or the one made of what it threw. *)
Definition settled (p : Platform) (c : Completion PlatformPostResult)
    : PlatformPostResult :=
  match c with
  | Normal result => result
  | Throw e => errorResult p e
  end.

Definition is_call (e : Event) : Prop := is_network_call e = true.

(** Is the callback supplied? *)
Definition given {A} (callback : option A) : bool :=
  match callback with
  | Some _ => true
  | None => false
  end.

(** The callback, if supplied, returns normally whatever it is called
    with. *)
Definition returns {W A} (callback : option (Callback W A)) : Prop :=
  forall f a w, callback = Some f -> fst (f a w) = Normal tt.

(** The callback, if supplied, returns normally and leaves the world as
    it is. *)
Definition observer {W A} (callback : option (Callback W A)) : Prop :=
  forall f a w, callback = Some f -> f a w = (Normal tt, w).

Definition callbacks_return {W} (options : UseMultiPlatformPostOptions W)
    : Prop :=
  returns (onSuccess options)
  /\ returns (onError options)
  /\ returns (onPartialSuccess options).

Definition observers {W} (options : UseMultiPlatformPostOptions W) : Prop :=
  observer (onSuccess options)
  /\ observer (onError options)
  /\ observer (onPartialSuccess options).

(** [kept] is [s] without the white space at its two ends: [s] is [kept]
    between two runs of white space, and [kept] neither starts nor ends
    with white space. *)
Definition trimmed_of (s kept : Text) : Prop :=
  exists lead trail,
    s = lead ++ kept ++ trail
    /\ Forall (fun c => is_white_space c = true) lead
    /\ Forall (fun c => is_white_space c = true) trail
    /\ (forall c rest, kept = c :: rest -> is_white_space c = false)
    /\ (forall c before, kept = before ++ [c] -> is_white_space c = false).

(** The results [rs] are those of one turn for each platform of [ps], in
    order: for a platform either one result, or the result of a post that
    succeeded followed by a failed one (the caller's callback threw). *)
Inductive Entries : list Platform -> list PlatformPostResult -> Prop :=
| Entries_nil : Entries [] []
| Entries_one p r ps rs :
    platform r = p -> Entries ps rs -> Entries (p :: ps) (r :: rs)
| Entries_two p r r' ps rs :
    platform r = p -> success r = true ->
    platform r' = p -> success r' = false ->
    Entries ps rs -> Entries (p :: ps) (r :: r' :: rs).

End Vocabulary.
Import Vocabulary.

(** The error text of a failed result, read the way the specification
    words it: the message of what was thrown, or the generic text when the
    thrown value has no message. *)
Module Claimed.

Definition message_of (e : Thrown) : option string :=
  match e with
  | ErrorObj EmptyString => None
  | ErrorObj m => Some m
  | NonError (Some EmptyString) => None
  | NonError other => other
  end.

Definition error_of_thrown (p : Platform) (e : Thrown) : string :=
  match message_of e with
  | Some m => m
  | None => ("Failed to post to " ++ p)%string
  end.

End Claimed.

(** The actions of one turn of the loop, around those of the attempt
    itself. *)
Module Turn.

Definition pause {W} (options : UseMultiPlatformPostOptions W) (i : nat)
    : list Event :=
  if (0 <? i)%nat then [Sleep (delay options)] else [].

(** Lines 183-191, once the attempt has left the array as [results]. *)
Definition published (request : MultiPlatformPostRequest)
    (results : list PlatformPostResult) : list Event :=
  [SetUploadProgress (progress_after (length results)
                        (length (platforms request)));
   SetResults results].

(** Lines 198-208, for [e] caught when the array held [results]. *)
Definition caught (p : Platform) (e : Thrown)
    (results : list PlatformPostResult) : list Event :=
  [ConsoleError ("Error posting to " ++ p ++ ":")%string e;
   SetResults (results ++ [errorResult p e])].

(** The three ways a turn goes: the attempt throws; the attempt gives a
    result and the turn ends in the [try]; the attempt gives a result and
    the callback told of it throws.  Each comes with the actions of the
    turn, the results it adds and the world it leaves. *)
Inductive Turned {W} (apis : PlatformApis W)
    (options : UseMultiPlatformPostOptions W)
    (request : MultiPlatformPostRequest)
    (i : nat) (p : Platform) (results : list PlatformPostResult) (w : W)
    : list Event -> list PlatformPostResult -> W -> Prop :=
| Threw t1 e w1 :
    post_to apis request p w = (t1, Throw e, w1) ->
    Turned apis options request i p results w
      (pause options i ++ t1 ++ caught p e results)
      [errorResult p e] w1
| Passed t1 r w1 t2 w2 :
    post_to apis request p w = (t1, Normal r, w1) ->
    notify options r (results ++ [r]) w1 = (t2, Normal tt, w2) ->
    Turned apis options request i p results w
      (pause options i ++ t1 ++ published request (results ++ [r]) ++ t2)
      [r] w2
| Disturbed t1 r w1 t2 e w2 :
    post_to apis request p w = (t1, Normal r, w1) ->
    notify options r (results ++ [r]) w1 = (t2, Throw e, w2) ->
    Turned apis options request i p results w
      (pause options i ++ t1 ++ published request (results ++ [r]) ++ t2
         ++ caught p e (results ++ [r]))
      [r; errorResult p e] w2.

(** The loop over [todo] from index [i], the array holding [results]: its
    actions, the results it adds and the world it leaves. *)
Inductive Looped {W} (apis : PlatformApis W)
    (options : UseMultiPlatformPostOptions W)
    (request : MultiPlatformPostRequest)
    : nat -> list Platform -> list PlatformPostResult -> W ->
      list Event -> list PlatformPostResult -> W -> Prop :=
| Looped_nil i results w :
    Looped apis options request i [] results w [] [] w
| Looped_cons i p rest results w t1 added w1 t2 rs w2 :
    Turned apis options request i p results w t1 added w1 ->
    Looped apis options request (S i) rest (results ++ added) w1 t2 rs w2 ->
    Looped apis options request i (p :: rest) results w
      (t1 ++ t2) (added ++ rs) w2.

End Turn.
Import Turn.

(** The fixed parts of the trace of a run. *)
Module Run.

(** Lines 36-43. *)
Definition opening (request : MultiPlatformPostRequest) : list Event :=
  [SetIsPosting true; SetPostError None; SetPostSuccess false;
   SetUploadProgress 0; SetCurrentPlatforms (platforms request);
   SetResults []; AssignAbortController (Some {| aborted := false |})].

(** Lines 274-276. *)
Definition closing : list Event :=
  [SetIsPosting false; SetUploadProgress 0; AssignAbortController None].

(** Lines 212-272 once the loop has left the results [rs]: what follows
    the loop, with the outer [catch] around it. *)
Definition settle {W} (options : UseMultiPlatformPostOptions W)
    (request : MultiPlatformPostRequest) (rs : list PlatformPostResult)
    : Js W MultiPlatformPostResponse :=
  try_catch (conclude options request rs) (recover options request).

(** Lines 248-260: what the outer [catch] does with [e], when [onError]
    returns. *)
Definition alarm {W} (options : UseMultiPlatformPostOptions W) (e : Thrown)
    : list Event :=
  [ConsoleError "Multi-platform post submission failed:" e;
   SetPostError (Some (errorMessage e))]
  ++ (if given (onError options) then [OnError (errorMessage e)] else [])
  ++ [SetTimeout ClearPostError 10000].

Definition failures (rs : list PlatformPostResult)
    : list PlatformPostResult :=
  filter (fun r => negb (success r)) rs.

(** Lines 214-272 once the loop has left the results [rs], when the
    callbacks return: the actions taken and the response returned. *)
Definition aftermath {W} (options : UseMultiPlatformPostOptions W)
    (request : MultiPlatformPostRequest) (rs : list PlatformPostResult)
    : list Event * MultiPlatformPostResponse :=
  let response := build_response request rs in
  if resp_success response then
    ([SetPostSuccess true]
       ++ (if given (onSuccess options) then [OnSuccess response] else [])
       ++ [SetTimeout ClearPostSuccess 5000],
     response)
  else if (0 <? length (filter success rs))%nat then
    ((if given (onPartialSuccess options) then [OnPartialSuccess rs] else [])
       ++ [SetTimeout ClearPostSuccess 5000],
     response)
  else
    (alarm options (ErrorObj (total_failure_message (failures rs))),
     failedResponse request (total_failure_message (failures rs))).

(** The actions that may follow the loop, or a failed validation, before
    the cleanup. *)
Definition settling (e : Event) : bool :=
  match e with
  | SetPostSuccess true | OnSuccess _ | OnPartialSuccess _
  | SetTimeout _ _ | ConsoleError _ _ | SetPostError (Some _)
  | OnError _ => true
  | _ => false
  end.

End Run.
Import Run.

(** Concrete runs used to exercise the statements. *)
Module Scenario.

Definition both_refuse : PlatformApis unit :=
  Sample.fixed (Resolved (Sample.refused "x is down"))
               (Resolved (Sample.refused "rate limited"))
               (Resolved Sample.ok) None.

Definition x_then_linkedin : MultiPlatformPostRequest :=
  {| platforms := ["x"; "linkedin"];
     content := {| text := code_units "hi"; media := None;
                   mediaType := None |};
     platformSpecific := {| linkedin := None; substack := None |} |}.

Definition x_ok_linkedin_limited : PlatformApis unit :=
  Sample.fixed (Resolved Sample.ok)
               (Resolved (Sample.refused "rate limited"))
               (Resolved Sample.ok) None.

(** The X client rejects (a network error); LinkedIn answers. *)
Definition x_unreachable : PlatformApis unit :=
  Sample.fixed (Rejected (ErrorObj "Network Error"))
               (Resolved Sample.ok) (Resolved Sample.ok) None.

(** The X client rejects with what [e] is. *)
Definition x_rejects_with (e : Thrown) : PlatformApis unit :=
  Sample.fixed (Rejected e) (Resolved Sample.ok) (Resolved Sample.ok) None.

Definition three_platforms : MultiPlatformPostRequest :=
  {| platforms := ["linkedin"; "x"; "substack"];
     content := Sample.plain "hi";
     platformSpecific := Sample.with_title "Weekly notes" |}.

Definition zero_delay : UseMultiPlatformPostOptions unit :=
  {| onSuccess := None; onError := None; onPartialSuccess := None;
     requestDelay := Some 0%Z |}.

(** The caller's [onPartialSuccess] throws the first time it is called. *)
Definition listener_throws_once : UseMultiPlatformPostOptions bool :=
  {| onSuccess := None; onError := None;
     onPartialSuccess := Some (Sample.throwing_once "listener failed");
     requestDelay := None |}.

(** The caller's [onError] throws. *)
Definition error_handler_throws : UseMultiPlatformPostOptions unit :=
  {| onSuccess := None;
     onError := Some (Sample.throwing "handler failed");
     onPartialSuccess := None;
     requestDelay := None |}.

(** The caller's [onSuccess] throws. *)
Definition success_handler_throws : UseMultiPlatformPostOptions unit :=
  {| onSuccess := Some (Sample.throwing "handler failed");
     onError := Some Sample.noting;
     onPartialSuccess := None;
     requestDelay := None |}.

End Scenario.

(** Moments of a run, read off its trace. *)
Module Moment.

(** The shortest prefix of [tr] that holds [k + 1] calls of [setResults].
    A run calls it once when it starts and once in every turn of the
    loop whose callback returns, so for [k >= 1] this is then the run up to
    the moment the [k]-th platform has settled. *)
Fixpoint upto_results (k : nat) (tr : list Event) : option (list Event) :=
  match tr with
  | [] => None
  | e :: rest =>
      match results_of e, k with
      | Some _, O => Some [e]
      | Some _, S k' => option_map (cons e) (upto_results k' rest)
      | None, _ => option_map (cons e) (upto_results k rest)
      end
  end.

(** [uploadProgress] as published when the [k]-th platform has settled. *)
Definition progress_when_settled (tr : list Event) (k : nat) : option Z :=
  option_map
    (fun pre => uploadProgress (cells (replay (useMultiPlatformPost mount) pre)))
    (upto_results k tr).

(** The actions at which the asynchronous body is suspended: it has issued
    a client call, or set the timer of the delay, and awaits it.  Other code
    of the page, [cancelPosting] for one, can only run while the body is
    suspended. *)
Definition is_await (e : Event) : bool :=
  match e with
  | Sleep _ => true
  | _ => is_network_call e
  end.

(** [P] holds of the hook each time the run [tr], started through the
    invocation [h], is suspended. *)
Fixpoint at_every_suspension (P : Instance -> Prop) (h : Instance)
    (tr : list Event) : Prop :=
  match tr with
  | [] => True
  | e :: rest =>
      (is_await e = true -> P (perform h e))
      /\ at_every_suspension P (perform h e) rest
  end.

(** The invocation that started the run sees it in flight: [isPosting] is
    set and its [abortController] holds a controller nobody has aborted. *)
Definition in_flight (h : Instance) : Prop :=
  isPosting (cells h) = true
  /\ abortController h = Some {| aborted := false |}.

(** The actions the dispatch loop takes. *)
Definition in_loop (e : Event) : bool :=
  match e with
  | Sleep _ | SetUploadProgress _ | SetResults _ | OnPartialSuccess _
  | ConsoleError _ _ => true
  | _ => is_network_call e
  end.

(** A run of [submitMultiPlatformPost] that has started, has issued its
    first client call and awaits the answer. *)
Definition started : list Event :=
  firstn 9 (trace_of (submitMultiPlatformPost Sample.all_ok
                        Sample.no_callbacks Scenario.x_then_linkedin tt)).

(** Would the hook ignore what is left of a run once [cancelPosting] has
    been called, [at_] actions into the run?  It would if no later action
    changed the cells. *)
Definition ignored_after_cancel (h : Instance) (tr : list Event)
    (at_ : nat) : Prop :=
  forall m,
    cells (replay (cancelPosting (replay h (firstn at_ tr)))
             (firstn m (skipn at_ tr)))
    = cells (cancelPosting (replay h (firstn at_ tr))).

End Moment.
Import Moment.

(** What a run lets the outside see, read off its trace. *)
Module Observe.






Definition error_of (e : Event) : option string :=
  match e with
  | OnError m => Some m
  | _ => None
  end.

(** The arguments of the calls of [options.onError]. *)
Definition error_notices (tr : list Event) : list string :=
  filter_map error_of tr.



Definition timer_of (e : Event) : option (TimerAction * Z) :=
  match e with
  | SetTimeout a ms => Some (a, ms)
  | _ => None
  end.

(** The timers a run leaves behind with [setTimeout(callback, ms)]: those
    that clear a flag.  (The timer of the awaited delay is a [Sleep].) *)
Definition timers (tr : list Event) : list (TimerAction * Z) :=
  filter_map timer_of tr.

(** The cells once the given timers have fired, in order. *)
Definition fire_all (l : list (TimerAction * Z)) (s : HookState) : HookState :=
  fold_left (fun s t => fire (fst t) s) l s.

Definition tweet_of (e : Event) : option CreateTweetRequest :=
  match e with
  | CallCreateTweet d => Some d
  | _ => None
  end.

(** The payloads handed to [xApi.createTweet], in order. *)
Definition tweets (tr : list Event) : list CreateTweetRequest :=
  filter_map tweet_of tr.

Definition substack_post_of (e : Event)
    : option (string * CreateSubstackPostRequest) :=
  match e with
  | CallSubstackCreatePost sid d => Some (sid, d)
  | _ => None
  end.

(** The session ids and payloads handed to [substackApi.createPost]. *)
Definition substack_posts (tr : list Event)
    : list (string * CreateSubstackPostRequest) :=
  filter_map substack_post_of tr.



(** What every result built by the loop satisfies. *)
Definition well_formed_result (r : PlatformPostResult) : Prop :=
  (success r = true -> error r = None /\ data r <> None)
  /\ (data r = None -> success r = false /\ error r <> None).

End Observe.
Import Observe.

(** The writes of a run to each of the remaining cells. *)
Module Writes.

Definition post_success_of (e : Event) : option bool :=
  match e with
  | SetPostSuccess b => Some b
  | _ => None
  end.

Definition post_error_of (e : Event) : option (option string) :=
  match e with
  | SetPostError m => Some m
  | _ => None
  end.


End Writes.
Import Writes.

(** The actions of a run but those of its loop, when the callbacks return:
    the start, what follows the loop (or the failed validation), and the
    cleanup. *)
Module Around.

Definition around_success {W} (options : UseMultiPlatformPostOptions W)
    (request : MultiPlatformPostRequest)
    (response : MultiPlatformPostResponse) : list Event :=
  opening request
  ++ ([SetPostSuccess true]
        ++ (if given (onSuccess options) then [OnSuccess response] else [])
        ++ [SetTimeout ClearPostSuccess 5000])
  ++ closing.

Definition around_partial {W} (options : UseMultiPlatformPostOptions W)
    (request : MultiPlatformPostRequest)
    (rs : list PlatformPostResult) : list Event :=
  opening request
  ++ ((if given (onPartialSuccess options) then [OnPartialSuccess rs] else [])
        ++ [SetTimeout ClearPostSuccess 5000])
  ++ closing.

Definition around_failure {W} (options : UseMultiPlatformPostOptions W)
    (request : MultiPlatformPostRequest) (msg : string) : list Event :=
  opening request ++ alarm options (ErrorObj msg) ++ closing.

(** The four ways a run can end when the callbacks return. *)
Inductive Ending {W} (apis : PlatformApis W)
    (options : UseMultiPlatformPostOptions W)
    (request : MultiPlatformPostRequest) (w : W)
    : list Event -> MultiPlatformPostResponse -> Prop :=
| Invalid msg :
    validate request w = ([], Throw (ErrorObj msg), w) ->
    Ending apis options request w
      (around_failure options request msg) (failedResponse request msg)
| AllSucceeded rs :
    completion_of (validate request w) = Normal tt ->
    completion_of (dispatch apis options request 0 (platforms request) [] w)
      = Normal rs ->
    rs <> [] ->
    Forall (fun r => success r = true) rs ->
    Ending apis options request w
      (around_success options request (build_response request rs))
      (build_response request rs)
| SomeFailed rs :
    completion_of (validate request w) = Normal tt ->
    completion_of (dispatch apis options request 0 (platforms request) [] w)
      = Normal rs ->
    existsb success rs = true ->
    existsb (fun r => negb (success r)) rs = true ->
    Ending apis options request w
      (around_partial options request rs) (build_response request rs)
| AllFailed rs :
    completion_of (validate request w) = Normal tt ->
    completion_of (dispatch apis options request 0 (platforms request) [] w)
      = Normal rs ->
    rs <> [] ->
    Forall (fun r => success r = false) rs ->
    Ending apis options request w
      (around_failure options request (total_failure_message rs))
      (failedResponse request (total_failure_message rs)).

End Around.
Import Around.

(** More concrete runs. *)
Module Scenario2.

Definition all_callbacks : UseMultiPlatformPostOptions unit :=
  {| onSuccess := Some Sample.noting; onError := Some Sample.noting;
     onPartialSuccess := Some Sample.noting;
     requestDelay := Some 500%Z |}.

Definition x_result : PlatformPostResult :=
  result_of_response "x" Sample.ok.

Definition linkedin_result : PlatformPostResult :=
  result_of_response "linkedin" Sample.ok.


(** A picture to post, and clients whose upload hands out an asset. *)
Definition picture : PostContent :=
  {| text := code_units "  look  "; media := Some "cat.png";
     mediaType := Some IMAGE |}.

Definition picture_to_linkedin : MultiPlatformPostRequest :=
  {| platforms := ["linkedin"]; content := picture;
     platformSpecific := Sample.no_specific |}.

(** "hi" between a no-break space and a line separator followed by a byte
    order mark. *)
Definition padded : Text :=
  ([160] ++ code_units "hi" ++ [8232; 65279])%N.

End Scenario2.

(** What holds of everything handed to [substackApi.createPost]. *)
Module Guard.

Definition guarded_substack_post (request : MultiPlatformPostRequest)
    (sent : string * CreateSubstackPostRequest) : Prop :=
  fst sent <> ""
  /\ ss_title (snd sent) <> ""
  /\ trimmed_of (text (content request)) (ss_content (snd sent))
  /\ exists s,
       substack (platformSpecific request) = Some s
       /\ title s = Some (ss_title (snd sent))
       /\ ss_subtitle (snd sent) = subtitle s
       /\ ss_isDraft (snd sent) = bool_or_false (isDraft s).

End Guard.
Import Guard.

(** * Properties *)

(** ** The monad *)

Section MonadLaws.

Context {W A B : Type}.

Lemma bind_normal (m : Js W A) (k : A -> Js W B) w t1 a w1 :
  m w = (t1, Normal a, w1) ->
  bind m k w = (t1 ++ trace_of (k a w1), completion_of (k a w1),
                world_of (k a w1)).
Proof.
  intros H. unfold bind. rewrite H.
  destruct (k a w1) as [[t2 c] w2]. reflexivity.
Qed.

Lemma bind_resume (m : Js W A) (k : A -> Js W B) w t1 a w1 :
  m w = (t1, Normal a, w1) ->
  bind m k w = match k a w1 with (t2, c, w2) => (t1 ++ t2, c, w2) end.
Proof. intros H. unfold bind. now rewrite H. Qed.

Lemma bind_throw (m : Js W A) (k : A -> Js W B) w t1 e w1 :
  m w = (t1, Throw e, w1) ->
  bind m k w = (t1, Throw e, w1).
Proof. intros H. unfold bind. now rewrite H. Qed.

Lemma triple_eta (r : list Event * Completion A * W) :
  r = (trace_of r, completion_of r, world_of r).
Proof. now destruct r as [[t c] w]. Qed.

End MonadLaws.

(** ** Callbacks *)

Module Callbacks.

(** Whatever the callback does, the call leaves one note, or none when
    no callback is supplied. *)
Lemma invoke_if_given_trace {W A} noted (f : option (Callback W A)) a w :
  trace_of (invoke_if_given noted f a w) = if given f then [noted] else [].
Proof.
  destruct f as [g|]; cbn; [|reflexivity].
  unfold invoke. now destruct (g a w).
Qed.

Lemma invoke_if_given_returns {W A} noted (f : option (Callback W A)) a w :
  returns f ->
  exists w1,
    invoke_if_given noted f a w
      = ((if given f then [noted] else []), Normal tt, w1).
Proof.
  intros H. destruct f as [g|]; cbn; [|now exists w].
  unfold invoke. specialize (H g a w eq_refl).
  destruct (g a w) as [c w1]. cbn in H. subst c. now exists w1.
Qed.

Lemma invoke_if_given_observer {W A} noted (f : option (Callback W A)) a w :
  observer f ->
  invoke_if_given noted f a w
    = ((if given f then [noted] else []), Normal tt, w).
Proof.
  intros H. destruct f as [g|]; cbn; [|reflexivity].
  unfold invoke. now rewrite (H g a w eq_refl).
Qed.

(** What a call throws is what the callback threw. *)
Lemma invoke_if_given_throws {W A} noted (f : option (Callback W A)) a w
      t e w1 :
  invoke_if_given noted f a w = (t, Throw e, w1) ->
  exists g, f = Some g /\ g a w = (Throw e, w1).
Proof.
  destruct f as [g|]; cbn; [|discriminate].
  unfold invoke. destruct (g a w) as [c w2] eqn:E.
  intros H. inversion H; subst. now exists g.
Qed.

End Callbacks.
Import Callbacks.

(** ** Validation *)

Module Validation.

Lemma check_titles_spec {W} ps l (w : W) :
  check_titles ps l w =
    ([], (if existsb (fun p => (p =? "substack")%string) l
             && negb (truthy (substack_title ps))
          then Throw (ErrorObj "Substack posts require a title")
          else Normal tt), w).
Proof.
  induction l as [|p rest IH]; [reflexivity|].
  cbn [check_titles existsb].
  destruct (p =? "substack")%string; cbn [orb andb].
  - destruct (truthy (substack_title ps)); cbn [negb]; [|reflexivity].
    rewrite IH. now rewrite andb_false_r.
  - exact IH.
Qed.

Lemma validate_empty {W} request (w : W) :
  platforms request = [] ->
  validate request w =
    ([], Throw (ErrorObj "At least one platform must be selected"), w).
Proof. intros H. unfold validate. now rewrite H. Qed.

Lemma validate_nonempty {W} request (w : W) :
  platforms request <> [] ->
  validate request w =
    ([], (if substack_untitled request
          then Throw (ErrorObj "Substack posts require a title")
          else Normal tt), w).
Proof.
  intros H. unfold validate.
  destruct (platforms request) as [|p rest] eqn:E; [congruence|].
  cbn [length Nat.eqb]. rewrite <- E. rewrite check_titles_spec.
  unfold substack_untitled. reflexivity.
Qed.

Lemma substack_selected_untitled request :
  In "substack" (platforms request) ->
  truthy (substack_title (platformSpecific request)) = false ->
  substack_untitled request = true.
Proof.
  intros Hin Ht. unfold substack_untitled. rewrite Ht. cbn [negb].
  rewrite andb_true_r. apply existsb_exists.
  exists "substack". split; [assumption|reflexivity].
Qed.

End Validation.
Import Validation.

(** ** One platform *)

Module Attempt.

(** Case analysis on the innermost scrutinee first, so that each client
    answer is split before the code that consumes it. *)
Ltac case_analysis :=
  repeat match goal with
         | |- context [match ?x with _ => _ end] =>
             lazymatch x with
             | context [match _ with _ => _ end] => fail
             | _ => destruct x eqn:?
             end
         end.

Lemma upload_calls {W} (apis : PlatformApis W) c w :
  Forall is_call (trace_of (upload_linkedin_media apis c w)).
Proof.
  unfold upload_linkedin_media, bind, await, throw, ret, trace_of.
  case_analysis; cbn; repeat constructor.
Qed.

Lemma post_to_calls {W} (apis : PlatformApis W) request p w :
  Forall is_call (trace_of (post_to apis request p w)).
Proof.
  unfold post_to.
  destruct (p =? "linkedin")%string;
    [|destruct (p =? "x")%string; [|destruct (p =? "substack")%string]].
  - unfold post_to_linkedin.
    pose proof (upload_calls apis (content request) w) as Hu.
    destruct (upload_linkedin_media apis (content request) w)
      as [[t1 [urn|e]] w1] eqn:E.
    + erewrite bind_normal by exact E. cbn [trace_of fst] in *.
      apply Forall_app. split; [assumption|].
      unfold bind, await, ret. case_analysis; cbn; repeat constructor.
    + erewrite bind_throw by exact E. assumption.
  - unfold post_to_x, bind, await, ret, trace_of.
    case_analysis; cbn; repeat constructor.
  - unfold post_to_substack, bind, await, read, throw, ret, trace_of.
    case_analysis; cbn; repeat constructor.
  - constructor.
Qed.

(** A result built by the [switch] carries the tag it was built for. *)
Lemma post_to_platform {W} (apis : PlatformApis W) request p w result :
  completion_of (post_to apis request p w) = Normal result ->
  platform result = p.
Proof.
  unfold post_to.
  destruct (p =? "linkedin")%string eqn:E1;
    [|destruct (p =? "x")%string eqn:E2;
      [|destruct (p =? "substack")%string eqn:E3]].
  - apply String.eqb_eq in E1. subst p.
    unfold post_to_linkedin, bind, await, ret, completion_of.
    case_analysis; cbn; intros H; inversion H; reflexivity.
  - apply String.eqb_eq in E2. subst p.
    unfold post_to_x, bind, await, ret, completion_of.
    case_analysis; cbn; intros H; inversion H; reflexivity.
  - apply String.eqb_eq in E3. subst p.
    unfold post_to_substack, bind, await, read, throw, ret, completion_of.
    case_analysis; cbn; intros H; inversion H; reflexivity.
  - cbn. discriminate.
Qed.

Lemma settled_platform {W} (apis : PlatformApis W) request p w :
  platform (settled p (completion_of (post_to apis request p w))) = p.
Proof.
  destruct (completion_of (post_to apis request p w)) as [r|e] eqn:E.
  - cbn. eapply post_to_platform; eassumption.
  - reflexivity.
Qed.

(** A tag other than the three known ones throws at once. *)
Lemma unsupported_platform_throws {W} (apis : PlatformApis W) request p w :
  p <> "linkedin" -> p <> "x" -> p <> "substack" ->
  post_to apis request p w =
    ([], Throw (ErrorObj ("Unsupported platform: " ++ p)%string), w).
Proof.
  intros H1 H2 H3. unfold post_to.
  apply String.eqb_neq in H1, H2, H3. now rewrite H1, H2, H3.
Qed.

(** Substack without a stored session throws before anything is sent. *)
Lemma missing_session_throws {W} (apis : PlatformApis W) request w s :
  substack (platformSpecific request) = Some s ->
  truthy (title s) = true ->
  truthy (localStorage_getItem apis "substackSessionId" w) = false ->
  post_to apis request "substack" w
    = ([], Throw (ErrorObj "Substack session not found"), w).
Proof.
  intros Hs Ht H. unfold post_to. cbn [String.eqb Ascii.eqb Bool.eqb].
  unfold post_to_substack, bind, read, throw.
  rewrite Hs, Ht, H. reflexivity.
Qed.

(** A media upload that does not report success, or gives no asset
    identifier, throws, and the post itself is never created. *)
Lemma failed_upload_throws {W} (apis : PlatformApis W) request w
      file up w1 :
  media (content request) = Some file ->
  is_image_or_video (content request) = true ->
  linkedInApi_uploadMedia apis file (media_title (content request))
    (media_description (content request)) w = (Resolved up, w1) ->
  upload_success up && truthy (upload_assetUrn up) = false ->
  post_to apis request "linkedin" w =
    ([CallUploadMedia file (media_title (content request))
        (media_description (content request))],
     Throw (ErrorObj (or_else (upload_message up) "Failed to upload media")),
     w1).
Proof.
  intros Hm Hk Hup Hbad. unfold post_to. cbn [String.eqb Ascii.eqb Bool.eqb].
  unfold post_to_linkedin, upload_linkedin_media.
  rewrite Hm, Hk. unfold bind at 1. unfold bind at 1. unfold await.
  rewrite Hup. rewrite Hbad. reflexivity.
Qed.

End Attempt.
Import Attempt.

(** ** Reading traces *)

Module TraceFacts.

Lemma filter_map_app {A B} (f : A -> option B) l1 l2 :
  filter_map f (l1 ++ l2) = filter_map f l1 ++ filter_map f l2.
Proof.
  induction l1 as [|x l1 IH]; [reflexivity|].
  cbn. destruct (f x); cbn; now rewrite IH.
Qed.

Lemma calls_publish_nothing {B} (f : Event -> option B) t :
  (forall e, is_call e -> f e = None) ->
  Forall is_call t -> filter_map f t = [].
Proof.
  intros Hf. induction 1 as [|e t He _ IH]; [reflexivity|].
  cbn. now rewrite (Hf e He).
Qed.


Lemma call_no_sleep e : is_call e -> sleep_of e = None.
Proof. destruct e; cbn; intros H; try reflexivity; discriminate. Qed.

End TraceFacts.
Import TraceFacts.


(** ** The dispatch loop *)

Module Loop.

Lemma notify_trace {W} (options : UseMultiPlatformPostOptions W) r rs w :
  trace_of (notify options r rs w) =
    if success r && given (onPartialSuccess options)
    then [OnPartialSuccess rs] else [].
Proof.
  unfold notify, when, invoke, ret.
  destruct (onPartialSuccess options) as [f|]; cbn [given].
  - destruct (success r); cbn; [|reflexivity]. now destruct (f rs w).
  - now rewrite andb_false_r.
Qed.

Lemma notify_returns {W} (options : UseMultiPlatformPostOptions W) r rs w :
  returns (onPartialSuccess options) ->
  exists w1,
    notify options r rs w =
      ((if success r && given (onPartialSuccess options)
        then [OnPartialSuccess rs] else []), Normal tt, w1).
Proof.
  intros H. unfold notify, when, invoke, ret.
  destruct (onPartialSuccess options) as [f|]; cbn [given].
  - destruct (success r); cbn; [|now exists w].
    specialize (H f rs w eq_refl). destruct (f rs w) as [c w1].
    cbn in H. subst c. now exists w1.
  - rewrite andb_false_r. now exists w.
Qed.

Lemma notify_observer {W} (options : UseMultiPlatformPostOptions W) r rs w :
  observer (onPartialSuccess options) ->
  notify options r rs w =
    ((if success r && given (onPartialSuccess options)
      then [OnPartialSuccess rs] else []), Normal tt, w).
Proof.
  intros H. unfold notify, when, invoke, ret.
  destruct (onPartialSuccess options) as [f|]; cbn [given].
  - destruct (success r); cbn; [|reflexivity].
    now rewrite (H f rs w eq_refl).
  - now rewrite andb_false_r.
Qed.

(** The callback is called for a success only, so it is a success that
    it disturbs. *)
Lemma notify_throws {W} (options : UseMultiPlatformPostOptions W) r rs w
      t e w1 :
  notify options r rs w = (t, Throw e, w1) ->
  success r = true
  /\ t = [OnPartialSuccess rs]
  /\ exists f, onPartialSuccess options = Some f /\ f rs w = (Throw e, w1).
Proof.
  unfold notify, when, invoke, ret.
  destruct (onPartialSuccess options) as [f|]; [|discriminate].
  destruct (success r); [|discriminate].
  destruct (f rs w) as [c w2] eqn:E. intros H. inversion H; subst.
  split; [reflexivity|]. split; [reflexivity|]. now exists f.
Qed.

Lemma notify_normal {W} (options : UseMultiPlatformPostOptions W) r rs w
      t u w1 :
  notify options r rs w = (t, Normal u, w1) ->
  u = tt
  /\ t = if success r && given (onPartialSuccess options)
         then [OnPartialSuccess rs] else [].
Proof.
  intros H. split; [now destruct u|].
  rewrite <- notify_trace with (w := w). now rewrite H.
Qed.

(** One turn, by the way it goes. *)
Lemma iteration_spec {W} (apis : PlatformApis W) options request i p
      results w :
  iteration apis options request i p results w =
    match post_to apis request p w with
    | (t1, Throw e, w1) =>
        (pause options i ++ t1 ++ caught p e results,
         Normal (results ++ [errorResult p e]), w1)
    | (t1, Normal r, w1) =>
        match notify options r (results ++ [r]) w1 with
        | (t2, Normal _, w2) =>
            (pause options i ++ t1 ++ published request (results ++ [r])
               ++ t2,
             Normal (results ++ [r]), w2)
        | (t2, Throw e, w2) =>
            (pause options i ++ t1 ++ published request (results ++ [r])
               ++ t2 ++ caught p e (results ++ [r]),
             Normal (results ++ [r; errorResult p e]), w2)
        end
    end.
Proof.
  unfold iteration, block, try_catch, bind, lift, push, update, local, when,
    emit, ret, pause, published, caught.
  cbn [fst snd].
  destruct (0 <? i)%nat; cbn [fst snd app];
    destruct (post_to apis request p w) as [[t1 [r|e]] w1];
    cbn [fst snd app]; rewrite ?app_nil_r;
    try reflexivity;
    destruct (notify options r (results ++ [r]) w1) as [[t2 [u|e]] w2];
    cbn [fst snd app]; rewrite ?app_nil_r, <- ?app_assoc; reflexivity.
Qed.

(** One turn always ends normally; it goes one of three ways. *)
Lemma iteration_turned {W} (apis : PlatformApis W) options request i p
      results w :
  exists t added w',
    iteration apis options request i p results w
      = (t, Normal (results ++ added), w')
    /\ Turned apis options request i p results w t added w'.
Proof.
  rewrite iteration_spec.
  destruct (post_to apis request p w) as [[t1 [r|e]] w1] eqn:Ep.
  - destruct (notify options r (results ++ [r]) w1) as [[t2 [u|e]] w2] eqn:En.
    + destruct u. eexists _, _, _. split; [reflexivity|].
      eapply Passed; eassumption.
    + eexists _, _, _. split; [reflexivity|].
      eapply Disturbed; eassumption.
  - eexists _, _, _. split; [reflexivity|]. now apply Threw.
Qed.

(** The loop always ends normally, and goes as [Looped] says. *)
Lemma dispatch_looped {W} (apis : PlatformApis W) options request todo :
  forall i results w,
  exists t rs w',
    dispatch apis options request i todo results w
      = (t, Normal (results ++ rs), w')
    /\ Looped apis options request i todo results w t rs w'.
Proof.
  induction todo as [|p rest IH]; intros i results w.
  - exists [], [], w. cbn. rewrite app_nil_r. split; [reflexivity|constructor].
  - destruct (iteration_turned apis options request i p results w)
      as (t1 & added & w1 & E1 & H1).
    destruct (IH (S i) (results ++ added) w1) as (t2 & rs & w2 & E2 & H2).
    exists (t1 ++ t2), (added ++ rs), w2. split.
    + cbn [dispatch]. erewrite bind_resume by exact E1. rewrite E2.
      now rewrite app_assoc.
    + econstructor; eassumption.
Qed.

(** What a finished loop is known by. *)
Lemma dispatch_inv {W} (apis : PlatformApis W) options request todo i
      results w t rs' w1 :
  dispatch apis options request i todo results w = (t, Normal rs', w1) ->
  exists rs,
    rs' = results ++ rs
    /\ Looped apis options request i todo results w t rs w1.
Proof.
  intros H.
  destruct (dispatch_looped apis options request todo i results w)
    as (t' & rs & w' & E & L).
  rewrite E in H. inversion H; subst. now exists rs.
Qed.

Lemma dispatch_completion_inv {W} (apis : PlatformApis W) options request
      todo i results w rs :
  completion_of (dispatch apis options request i todo results w)
    = Normal (results ++ rs) ->
  exists t w1, Looped apis options request i todo results w t rs w1.
Proof.
  intros H.
  destruct (dispatch_looped apis options request todo i results w)
    as (t' & rs' & w' & E & L).
  rewrite E in H. cbn in H. inversion H as [E'].
  apply app_inv_head in E'. subst rs'. eauto.
Qed.

(** Running the loop over [before ++ after] is running it over [before]
    and then, from the index, results and world reached, over [after]. *)
Lemma dispatch_app {W} (apis : PlatformApis W) options request before after :
  forall i results w t1 rs1 w1,
    dispatch apis options request i before results w
      = (t1, Normal rs1, w1) ->
    dispatch apis options request i (before ++ after) results w =
      (t1 ++ trace_of (dispatch apis options request (i + length before)
                         after rs1 w1),
       completion_of (dispatch apis options request (i + length before)
                        after rs1 w1),
       world_of (dispatch apis options request (i + length before)
                   after rs1 w1)).
Proof.
  induction before as [|p rest IH]; intros i results w t1 rs1 w1 H.
  - cbn in H. inversion H; subst. cbn [app length].
    rewrite Nat.add_0_r. apply triple_eta.
  - cbn [app dispatch] in H |- *.
    destruct (iteration_turned apis options request i p results w)
      as (ta & added & wa & Ea & _).
    erewrite bind_resume in H |- * by exact Ea.
    destruct (dispatch apis options request (S i) rest (results ++ added) wa)
      as [[t c] w2] eqn:E.
    inversion H; subst.
    rewrite (IH _ _ _ _ _ _ E).
    cbn [trace_of completion_of world_of fst snd length].
    rewrite Nat.add_succ_r. rewrite <- app_assoc. reflexivity.
Qed.

(** A turn adds results tagged with its platform: one, or a success and
    then a failure. *)
Lemma turned_entries {W} (apis : PlatformApis W) options request i p
      results w t added w1 rest rs :
  Turned apis options request i p results w t added w1 ->
  Entries rest rs -> Entries (p :: rest) (added ++ rs).
Proof.
  intros H Hrs. destruct H as [t1 e wa Hp|t1 r wa t2 wb Hp Hn
                             |t1 r wa t2 e wb Hp Hn]; cbn [app].
  - now apply Entries_one.
  - apply Entries_one; [|assumption].
    eapply post_to_platform. rewrite Hp. reflexivity.
  - apply Entries_two; try reflexivity; [| |assumption].
    + eapply post_to_platform. rewrite Hp. reflexivity.
    + now destruct (notify_throws _ _ _ _ _ _ _ Hn).
Qed.

(** Every platform gets its turn and its results, in order. *)
Lemma looped_entries {W} (apis : PlatformApis W) options request i todo
      results w t rs w1 :
  Looped apis options request i todo results w t rs w1 -> Entries todo rs.
Proof.
  induction 1 as [|i p rest results w t1 added w1 t2 rs w2 Ht _ IH].
  - constructor.
  - eapply turned_entries; eassumption.
Qed.

Lemma entries_nonempty ps rs : Entries ps rs -> ps <> [] -> rs <> [].
Proof. destruct 1; intros Hne; congruence. Qed.

(** Where no result of a success is followed by a failure for the same
    turn, there is one result per platform.  That is so when no result is
    a success. *)
Lemma entries_all_failed ps rs :
  Entries ps rs -> Forall (fun r => success r = false) rs ->
  map platform rs = ps.
Proof.
  induction 1 as [|q r ps rs Hq _ IH|q r r' ps rs Hq Hs _ _ _ IH];
    intros Hall; [reflexivity| |].
  - inversion Hall; subst. cbn. now rewrite IH.
  - inversion Hall; subst. congruence.
Qed.


(** When the callback returns, a turn adds exactly the result of the
    attempt. *)
Lemma turned_returns {W} (apis : PlatformApis W) options request i p
      results w t added w1 :
  returns (onPartialSuccess options) ->
  Turned apis options request i p results w t added w1 ->
  added = [settled p (completion_of (post_to apis request p w))]
  /\ t = pause options i ++ trace_of (post_to apis request p w)
         ++ match completion_of (post_to apis request p w) with
            | Normal r =>
                published request (results ++ [r])
                ++ (if success r && given (onPartialSuccess options)
                    then [OnPartialSuccess (results ++ [r])] else [])
            | Throw e => caught p e results
            end.
Proof.
  intros Hret H. destruct H as [t1 e wa Hp|t1 r wa t2 wb Hp Hn
                               |t1 r wa t2 e wb Hp Hn];
    rewrite Hp; cbn [trace_of completion_of fst snd settled].
  - now split.
  - split; [reflexivity|].
    destruct (notify_normal _ _ _ _ _ _ _ Hn) as [_ ->]. reflexivity.
  - destruct (notify_returns options r (results ++ [r]) wa Hret) as [w' E].
    rewrite E in Hn. discriminate.
Qed.

Lemma looped_returns_platforms {W} (apis : PlatformApis W) options request
      i todo results w t rs w1 :
  returns (onPartialSuccess options) ->
  Looped apis options request i todo results w t rs w1 ->
  map platform rs = todo.
Proof.
  intros Hret.
  induction 1 as [|i p rest results w t1 added w1 t2 rs w2 Ht _ IH];
    [reflexivity|].
  destruct (turned_returns _ _ _ _ _ _ _ _ _ _ Hret Ht) as [-> _].
  cbn [app map]. rewrite settled_platform. now rewrite IH.
Qed.

(** A turn seen through an observer [f] of actions. *)
Lemma turned_observed {W B} (f : Event -> option B)
      (apis : PlatformApis W) options request i p results w t added w1 :
  Turned apis options request i p results w t added w1 ->
  exists t1 rest,
    trace_of (post_to apis request p w) = t1
    /\ t = pause options i ++ t1 ++ rest
    /\ Forall (fun e => is_network_call e = false /\ sleep_of e = None) rest.
Proof.
  intros H. destruct H as [t1 e wa Hp|t1 r wa t2 wb Hp Hn
                          |t1 r wa t2 e wb Hp Hn];
    rewrite Hp; cbn [trace_of fst]; eexists _, _;
    (split; [reflexivity|]); (split; [reflexivity|]).
  - repeat constructor.
  - destruct (notify_normal _ _ _ _ _ _ _ Hn) as [_ ->].
    destruct (success r && given (onPartialSuccess options));
      repeat constructor.
  - destruct (notify_throws _ _ _ _ _ _ _ Hn) as (_ & -> & _).
    repeat constructor.
Qed.

(** The pauses of the loop: one before each platform but the very first. *)
Lemma looped_sleeps {W} (apis : PlatformApis W) options request i todo
      results w t rs w1 :
  Looped apis options request i todo results w t rs w1 ->
  sleeps t =
    repeat (delay options)
           (if (0 <? i)%nat then length todo else length todo - 1).
Proof.
  induction 1 as [i results w|i p rest results w t1 added w1 t2 rs w2 Ht _ IH].
  - now destruct i.
  - destruct (turned_observed sleep_of _ _ _ _ _ _ _ _ _ _ Ht)
      as (tp & tail & Etp & -> & Htail).
    unfold sleeps in *. rewrite !filter_map_app, IH.
    rewrite <- Etp.
    rewrite (calls_publish_nothing sleep_of _ call_no_sleep
               (post_to_calls apis request p w)).
    assert (E : filter_map sleep_of tail = []).
    { clear -Htail. induction Htail as [|e l [_ He] _ IH]; [reflexivity|].
      cbn. now rewrite He. }
    rewrite E. cbn [app]. unfold pause.
    destruct i as [|i]; cbn [Nat.ltb Nat.leb filter_map sleep_of app length].
    + f_equal. lia.
    + reflexivity.
Qed.

End Loop.
Import Loop.

(** ** The whole run *)

Module Whole.

(** The outer [catch], by what [onError] does. *)
Lemma recover_spec {W} (options : UseMultiPlatformPostOptions W) request e
      w :
  recover options request e w =
    match invoke_if_given (OnError (errorMessage e)) (onError options)
            (errorMessage e) w with
    | (t, Normal _, w1) =>
        (ConsoleError "Multi-platform post submission failed:" e
           :: SetPostError (Some (errorMessage e))
           :: t ++ [SetTimeout ClearPostError 10000],
         Normal (failedResponse request (errorMessage e)), w1)
    | (t, Throw e', w1) =>
        (ConsoleError "Multi-platform post submission failed:" e
           :: SetPostError (Some (errorMessage e)) :: t,
         Throw e', w1)
    end.
Proof.
  unfold recover, bind, emit, ret.
  destruct (invoke_if_given _ _ _ w) as [[t [u|e']] w1]; reflexivity.
Qed.

Lemma recover_returns {W} (options : UseMultiPlatformPostOptions W) request
      e w :
  returns (onError options) ->
  exists w1,
    recover options request e w =
      (alarm options e, Normal (failedResponse request (errorMessage e)), w1).
Proof.
  intros H. rewrite recover_spec.
  destruct (invoke_if_given_returns (OnError (errorMessage e)) _
              (errorMessage e) w H) as [w1 ->].
  exists w1. reflexivity.
Qed.

Lemma recover_observer {W} (options : UseMultiPlatformPostOptions W) request
      e w :
  observer (onError options) ->
  recover options request e w =
    (alarm options e, Normal (failedResponse request (errorMessage e)), w).
Proof.
  intros H. rewrite recover_spec.
  now rewrite (invoke_if_given_observer _ _ _ w H).
Qed.

(** The outer [catch] rejects only with what [onError] threw, and
    resolves only with the failed response. *)
Lemma recover_outcome {W} (options : UseMultiPlatformPostOptions W) request
      e w :
  Forall (fun ev => settling ev = true) (trace_of (recover options request e w))
  /\ match completion_of (recover options request e w) with
     | Normal response => response = failedResponse request (errorMessage e)
     | Throw e' =>
         exists f w1,
           onError options = Some f
           /\ f (errorMessage e) w = (Throw e', w1)
     end.
Proof.
  rewrite recover_spec.
  pose proof (invoke_if_given_trace (OnError (errorMessage e))
                (onError options) (errorMessage e) w) as Ht.
  destruct (invoke_if_given _ _ _ w) as [[t [u|e']] w1] eqn:E;
    cbn [trace_of completion_of fst snd] in *; subst t.
  - split; [|reflexivity].
    destruct (given (onError options)); repeat constructor.
  - split; [destruct (given (onError options)); repeat constructor|].
    destruct (invoke_if_given_throws _ _ _ _ _ _ _ E) as (f & Hf & Hc).
    now exists f, w1.
Qed.

Lemma try_catch_normal {W A} (m : Js W A) h w t a w1 :
  m w = (t, Normal a, w1) -> try_catch m h w = (t, Normal a, w1).
Proof. intros H. unfold try_catch. now rewrite H. Qed.

Lemma try_catch_throw {W A} (m : Js W A) h w t e w1 :
  m w = (t, Throw e, w1) ->
  try_catch m h w =
    (t ++ trace_of (h e w1), completion_of (h e w1), world_of (h e w1)).
Proof.
  intros H. unfold try_catch. rewrite H.
  now destruct (h e w1) as [[t2 c] w2].
Qed.

(** What follows the loop, by what the callbacks do. *)
Lemma conclude_spec {W} (options : UseMultiPlatformPostOptions W) request
      rs w :
  conclude options request rs w =
    let response := build_response request rs in
    if resp_success response then
      match invoke_if_given (OnSuccess response) (onSuccess options)
              response w with
      | (t, Normal _, w1) =>
          (SetUploadProgress 100 :: SetPostSuccess true
             :: t ++ [SetTimeout ClearPostSuccess 5000],
           Normal response, w1)
      | (t, Throw e, w1) =>
          (SetUploadProgress 100 :: SetPostSuccess true :: t, Throw e, w1)
      end
    else if (0 <? length (filter success rs))%nat then
      match invoke_if_given (OnPartialSuccess rs) (onPartialSuccess options)
              rs w with
      | (t, Normal _, w1) =>
          (SetUploadProgress 100 :: t ++ [SetTimeout ClearPostSuccess 5000],
           Normal response, w1)
      | (t, Throw e, w1) => (SetUploadProgress 100 :: t, Throw e, w1)
      end
    else
      ([SetUploadProgress 100],
       Throw (ErrorObj (total_failure_message (failures rs))), w).
Proof.
  unfold conclude. cbv zeta.
  destruct (resp_success (build_response request rs)).
  - unfold bind, emit, ret.
    destruct (invoke_if_given _ _ _ w) as [[t [u|e]] w1]; reflexivity.
  - destruct (0 <? length (filter success rs))%nat.
    + unfold bind, emit, ret.
      destruct (invoke_if_given _ _ _ w) as [[t [u|e]] w1]; reflexivity.
    + reflexivity.
Qed.

(** When the callbacks return, what follows the loop is [aftermath]. *)
Lemma settle_returns {W} (options : UseMultiPlatformPostOptions W) request
      rs w :
  callbacks_return options ->
  exists w1,
    settle options request rs w =
      (SetUploadProgress 100 :: fst (aftermath options request rs),
       Normal (snd (aftermath options request rs)), w1).
Proof.
  intros (Hs & He & Hp). unfold settle, aftermath. cbv zeta.
  pose proof (conclude_spec options request rs w) as Hc. cbv zeta in Hc.
  destruct (resp_success (build_response request rs)).
  - destruct (invoke_if_given_returns
                (OnSuccess (build_response request rs)) _
                (build_response request rs) w Hs) as [w1 E].
    rewrite E in Hc. exists w1.
    now rewrite (try_catch_normal _ _ _ _ _ _ Hc).
  - destruct (0 <? length (filter success rs))%nat.
    + destruct (invoke_if_given_returns (OnPartialSuccess rs) _ rs w Hp)
        as [w1 E].
      rewrite E in Hc. exists w1.
      now rewrite (try_catch_normal _ _ _ _ _ _ Hc).
    + rewrite (try_catch_throw _ _ _ _ _ _ Hc).
      destruct (recover_returns options request
                  (ErrorObj (total_failure_message (failures rs))) w He)
        as [w1 E].
      rewrite E. exists w1. reflexivity.
Qed.

Lemma settle_observers {W} (options : UseMultiPlatformPostOptions W) request
      rs w :
  observers options ->
  settle options request rs w =
    (SetUploadProgress 100 :: fst (aftermath options request rs),
     Normal (snd (aftermath options request rs)), w).
Proof.
  intros (Hs & He & Hp). unfold settle, aftermath. cbv zeta.
  pose proof (conclude_spec options request rs w) as Hc. cbv zeta in Hc.
  destruct (resp_success (build_response request rs)).
  - rewrite (invoke_if_given_observer _ _ _ w Hs) in Hc.
    now rewrite (try_catch_normal _ _ _ _ _ _ Hc).
  - destruct (0 <? length (filter success rs))%nat.
    + rewrite (invoke_if_given_observer _ _ _ w Hp) in Hc.
      now rewrite (try_catch_normal _ _ _ _ _ _ Hc).
    + rewrite (try_catch_throw _ _ _ _ _ _ Hc).
      now rewrite (recover_observer options request _ w He).
Qed.

(** Whatever the callbacks do, what follows the loop publishes 100 and
    then takes settling actions only. *)
Lemma settle_shape {W} (options : UseMultiPlatformPostOptions W) request
      rs w :
  exists tail,
    trace_of (settle options request rs w) = SetUploadProgress 100 :: tail
    /\ Forall (fun ev => settling ev = true) tail.
Proof.
  unfold settle.
  pose proof (conclude_spec options request rs w) as Hc. cbv zeta in Hc.
  assert (Hcatch : forall t e w1,
             conclude options request rs w
               = (SetUploadProgress 100 :: t, Throw e, w1) ->
             Forall (fun ev => settling ev = true) t ->
             exists tail,
               trace_of (try_catch (conclude options request rs)
                           (recover options request) w)
                 = SetUploadProgress 100 :: tail
               /\ Forall (fun ev => settling ev = true) tail).
  { intros t e w1 E Ht. rewrite (try_catch_throw _ _ _ _ _ _ E).
    cbn [trace_of fst]. eexists. split; [reflexivity|].
    apply Forall_app. split; [exact Ht|].
    apply (recover_outcome options request e w1). }
  destruct (resp_success (build_response request rs)).
  - pose proof (invoke_if_given_trace
                  (OnSuccess (build_response request rs))
                  (onSuccess options) (build_response request rs) w) as Ht.
    destruct (invoke_if_given _ _ _ w) as [[t [u|e]] w1];
      cbn [trace_of fst] in Ht; subst t.
    + rewrite (try_catch_normal _ _ _ _ _ _ Hc). cbn [trace_of fst].
      eexists. split; [reflexivity|].
      destruct (given (onSuccess options)); repeat constructor.
    + apply (Hcatch _ _ _ Hc).
      destruct (given (onSuccess options)); repeat constructor.
  - destruct (0 <? length (filter success rs))%nat.
    + pose proof (invoke_if_given_trace (OnPartialSuccess rs)
                    (onPartialSuccess options) rs w) as Ht.
      destruct (invoke_if_given _ _ _ w) as [[t [u|e]] w1];
        cbn [trace_of fst] in Ht; subst t.
      * rewrite (try_catch_normal _ _ _ _ _ _ Hc). cbn [trace_of fst].
        eexists. split; [reflexivity|].
        destruct (given (onPartialSuccess options)); repeat constructor.
      * apply (Hcatch _ _ _ Hc).
        destruct (given (onPartialSuccess options)); repeat constructor.
    + apply (Hcatch [] _ _ Hc). constructor.
Qed.

(** The promise rejects only with what [onError] threw. *)
Lemma settle_rejects {W} (options : UseMultiPlatformPostOptions W) request
      rs w e :
  completion_of (settle options request rs w) = Throw e ->
  exists f msg w0 w1,
    onError options = Some f /\ f msg w0 = (Throw e, w1).
Proof.
  unfold settle.
  destruct (conclude options request rs w) as [[t [r|e0]] w1] eqn:Ec.
  - rewrite (try_catch_normal _ _ _ _ _ _ Ec). discriminate.
  - rewrite (try_catch_throw _ _ _ _ _ _ Ec).
    change (completion_of (recover options request e0 w1) = Throw e ->
            exists f msg w0 w2,
              onError options = Some f /\ f msg w0 = (Throw e, w2)).
    pose proof (proj2 (recover_outcome options request e0 w1)) as H.
    intros E. rewrite E in H.
    destruct H as (f & w2 & Hf & Hc). now exists f, (errorMessage e0), w1, w2.
Qed.

(** A run is its start, what the outer [try] and [catch] do, and its
    cleanup, whatever happens in between. *)
Lemma submit_frame {W} (apis : PlatformApis W) options request w :
  submitMultiPlatformPost apis options request w =
    let r := try_catch (attempt_all apis options request)
               (recover options request) w in
    (opening request ++ trace_of r ++ closing, completion_of r, world_of r).
Proof.
  unfold submitMultiPlatformPost, finally, cleanup.
  unfold bind at 1 2 3 4 5 6 7. unfold emit at 1 2 3 4 5 6 7.
  cbv beta iota zeta.
  destruct (try_catch (attempt_all apis options request)
              (recover options request) w) as [[t c] w1].
  unfold bind, emit. cbn [app trace_of completion_of world_of fst snd].
  unfold opening, closing. cbn [app]. reflexivity.
Qed.

(** A request that fails validation. *)
Lemma submit_invalid {W} (apis : PlatformApis W) options request w e :
  validate request w = ([], Throw e, w) ->
  submitMultiPlatformPost apis options request w =
    (opening request ++ trace_of (recover options request e w) ++ closing,
     completion_of (recover options request e w),
     world_of (recover options request e w)).
Proof.
  intros Hv.
  assert (Ha : attempt_all apis options request w = ([], Throw e, w)).
  { unfold attempt_all. now apply bind_throw. }
  rewrite submit_frame. cbv zeta.
  rewrite (try_catch_throw _ _ _ _ _ _ Ha).
  cbn [trace_of completion_of world_of fst snd app]. reflexivity.
Qed.

(** A request that passes validation, the loop leaving the results [rs]. *)
Lemma submit_valid {W} (apis : PlatformApis W) options request w t rs w1 :
  validate request w = ([], Normal tt, w) ->
  dispatch apis options request 0 (platforms request) [] w
    = (t, Normal rs, w1) ->
  submitMultiPlatformPost apis options request w =
    (opening request
       ++ SetUploadProgress 10 :: t
       ++ trace_of (settle options request rs w1) ++ closing,
     completion_of (settle options request rs w1),
     world_of (settle options request rs w1)).
Proof.
  intros Hv Hd.
  assert (Ha : try_catch (attempt_all apis options request)
                 (recover options request) w =
               (SetUploadProgress 10 :: t
                  ++ trace_of (settle options request rs w1),
                completion_of (settle options request rs w1),
                world_of (settle options request rs w1))).
  { unfold settle, try_catch, attempt_all.
    erewrite bind_resume by exact Hv. cbn [app].
    unfold bind at 1. unfold emit at 1. cbv beta iota.
    erewrite bind_resume by exact Hd.
    destruct (conclude options request rs w1) as [[t2 [r|e]] w2];
      cbn [app].
    - reflexivity.
    - destruct (recover options request e w2) as [[t3 c] w3].
      cbn [trace_of completion_of world_of fst snd app].
      now rewrite <- app_assoc. }
  rewrite submit_frame. cbv zeta. rewrite Ha.
  cbn [trace_of completion_of world_of fst snd app].
  now rewrite <- app_assoc.
Qed.

(** The same, when the callbacks return. *)
Lemma submit_valid_returns {W} (apis : PlatformApis W) options request w
      t rs w1 :
  callbacks_return options ->
  validate request w = ([], Normal tt, w) ->
  dispatch apis options request 0 (platforms request) [] w
    = (t, Normal rs, w1) ->
  exists w2,
    submitMultiPlatformPost apis options request w =
      (opening request
         ++ SetUploadProgress 10 :: t
         ++ SetUploadProgress 100 :: fst (aftermath options request rs)
         ++ closing,
       Normal (snd (aftermath options request rs)), w2).
Proof.
  intros Hc Hv Hd.
  rewrite (submit_valid apis options request w t rs w1 Hv Hd).
  destruct (settle_returns options request rs w1 Hc) as [w2 ->].
  exists w2. reflexivity.
Qed.

Lemma submit_invalid_returns {W} (apis : PlatformApis W) options request w
      e :
  returns (onError options) ->
  validate request w = ([], Throw e, w) ->
  exists w1,
    submitMultiPlatformPost apis options request w =
      (opening request ++ alarm options e ++ closing,
       Normal (failedResponse request (errorMessage e)), w1).
Proof.
  intros Hc Hv.
  rewrite (submit_invalid apis options request w e Hv).
  destruct (recover_returns options request e w Hc) as [w1 ->].
  exists w1. reflexivity.
Qed.

(** Validation has two outcomes, and neither touches the world. *)
Lemma validate_outcome {W} request (w : W) :
  validate request w = ([], Normal tt, w)
  \/ exists msg, validate request w = ([], Throw (ErrorObj msg), w).
Proof.
  destruct (platforms request) as [|p rest] eqn:E.
  - right. eexists. now apply validate_empty.
  - rewrite validate_nonempty by congruence.
    destruct (substack_untitled request); eauto.
Qed.

(** The actions of any run: its start; then, for a validated request,
    the progress 10, the loop and the progress 100; then settling actions
    only; then its cleanup. *)
Lemma run_shape {W} (apis : PlatformApis W) options request w :
  exists middle tail,
    trace_of (submitMultiPlatformPost apis options request w)
      = opening request ++ middle ++ tail ++ closing
    /\ Forall (fun ev => settling ev = true) tail
    /\ match completion_of (validate request w) with
       | Normal _ =>
           middle =
             SetUploadProgress 10
               :: trace_of (dispatch apis options request 0
                              (platforms request) [] w)
               ++ [SetUploadProgress 100]
       | Throw _ => middle = []
       end.
Proof.
  destruct (validate_outcome request w) as [Hv|[msg Hv]].
  - destruct (dispatch_looped apis options request (platforms request) 0 [] w)
      as (t & rs & w1 & Hd & _).
    cbn [app] in Hd.
    rewrite (submit_valid apis options request w t rs w1 Hv Hd).
    destruct (settle_shape options request rs w1) as (tail & -> & Ht).
    rewrite Hv, Hd. cbn [trace_of completion_of fst snd].
    eexists _, tail. split; [|split; [exact Ht|reflexivity]].
    cbn [app]. rewrite <- !app_assoc. reflexivity.
  - rewrite (submit_invalid apis options request w _ Hv).
    rewrite Hv. cbn [trace_of completion_of fst snd].
    exists [], (trace_of (recover options request (ErrorObj msg) w)).
    split; [reflexivity|]. split; [|reflexivity].
    apply recover_outcome.
Qed.

End Whole.
Import Whole.
(** ** Responses *)

Module Responses.



Lemma all_failed_failures rs :
  Forall (fun r => success r = false) rs -> failures rs = rs.
Proof.
  unfold failures. induction 1 as [|r rs Hr _ IH]; [reflexivity|].
  cbn [filter]. rewrite Hr. cbn [negb]. now rewrite IH.
Qed.

Lemma all_failed_no_success rs :
  Forall (fun r => success r = false) rs -> filter success rs = [].
Proof.
  induction 1 as [|r rs Hr _ IH]; [reflexivity|].
  cbn [filter]. now rewrite Hr.
Qed.

(** No platform succeeded: the verdict is the fatal one. *)
Lemma aftermath_total_failure {W} (options : UseMultiPlatformPostOptions W) request rs :
  rs <> [] ->
  Forall (fun r => success r = false) rs ->
  aftermath options request rs =
    (alarm options (ErrorObj (total_failure_message rs)),
     failedResponse request (total_failure_message rs)).
Proof.
  intros Hne Hall. unfold aftermath, build_response. cbn [resp_success].
  fold (failures rs).
  rewrite (all_failed_failures rs Hall), (all_failed_no_success rs Hall).
  destruct rs as [|r rs]; [congruence|]. reflexivity.
Qed.

Lemma occurs_in_refl s : occurs_in s s.
Proof.
  exists "", "". cbn. induction s as [|c s IH]; [reflexivity|].
  cbn. now rewrite <- IH.
Qed.

Lemma append_assoc (a b c : string) :
  ((a ++ b) ++ c = a ++ (b ++ c))%string.
Proof. induction a as [|x a IH]; [reflexivity|]. cbn. now rewrite IH. Qed.

Lemma occurs_in_prefixed pre s hay :
  occurs_in s hay -> occurs_in s (pre ++ hay)%string.
Proof.
  intros (b & a & ->). exists (pre ++ b)%string, a.
  now rewrite append_assoc.
Qed.

Lemma occurs_in_suffixed post s hay :
  occurs_in s hay -> occurs_in s (hay ++ post)%string.
Proof.
  intros (b & a & ->). exists b, (a ++ post)%string.
  now rewrite !append_assoc.
Qed.

(** Every joined piece occurs in the joined string. *)
Lemma occurs_in_join sep l s : In s l -> occurs_in s (join sep l).
Proof.
  induction l as [|x l IH]; [contradiction|].
  intros [->|Hin].
  - destruct l as [|y l]; [apply occurs_in_refl|].
    cbn [join]. apply occurs_in_suffixed. apply occurs_in_refl.
  - destruct l as [|y l]; [contradiction|].
    change (join sep (x :: y :: l))
      with (x ++ sep ++ join sep (y :: l))%string.
    apply occurs_in_prefixed. apply occurs_in_prefixed. now apply IH.
Qed.

(** The message of every failed result occurs in the fatal message. *)
Lemma total_failure_message_mentions rs r m :
  In r rs -> error r = Some m -> occurs_in m (total_failure_message rs).
Proof.
  intros Hin He. unfold total_failure_message.
  apply occurs_in_prefixed. apply occurs_in_join.
  replace m with (error_text r) by (unfold error_text; now rewrite He).
  now apply in_map.
Qed.

Lemma total_failure_message_exact rs :
  total_failure_message rs =
    ("Failed to post to all platforms: "
       ++ join ", " (map (fun r => match error r with
                                   | Some m => m
                                   | None => ""
                                   end) rs))%string.
Proof. reflexivity. Qed.

End Responses.
Import Responses.

(** ** What an observer sees of a run *)

Module RunObserved.

Lemma unobserved {B} (f : Event -> option B) (P : Event -> bool) t :
  (forall e, P e = true -> f e = None) ->
  Forall (fun e => P e = true) t -> filter_map f t = [].
Proof.
  intros Hf. induction 1 as [|e t He _ IH]; [reflexivity|].
  cbn. now rewrite (Hf e He).
Qed.

(** An observer blind to the settling actions sees the start of a run,
    for a validated request the progress 10, the loop and the progress
    100, and the cleanup. *)
Lemma run_observed {W B} (f : Event -> option B)
      (apis : PlatformApis W) options request w :
  (forall e, settling e = true -> f e = None) ->
  filter_map f (trace_of (submitMultiPlatformPost apis options request w)) =
    filter_map f (opening request)
    ++ match completion_of (validate request w) with
       | Normal _ =>
           filter_map f [SetUploadProgress 10]
           ++ filter_map f
                (trace_of (dispatch apis options request 0
                             (platforms request) [] w))
           ++ filter_map f [SetUploadProgress 100]
       | Throw _ => []
       end
    ++ filter_map f closing.
Proof.
  intros Hf.
  destruct (run_shape apis options request w) as (middle & tail & -> & Ht & Hm).
  rewrite !filter_map_app. rewrite (unobserved f settling tail Hf Ht).
  cbn [app]. f_equal. f_equal.
  destruct (completion_of (validate request w)); subst middle;
    [|reflexivity].
  change (SetUploadProgress 10
            :: trace_of (dispatch apis options request 0
                           (platforms request) [] w)
            ++ [SetUploadProgress 100])
    with ([SetUploadProgress 10]
            ++ trace_of (dispatch apis options request 0
                           (platforms request) [] w)
            ++ [SetUploadProgress 100]).
  now rewrite !filter_map_app.
Qed.

(** The loop takes no action but those of [in_loop]. *)
Lemma looped_in_loop {W} (apis : PlatformApis W) options request i todo
      results w t rs w1 :
  Looped apis options request i todo results w t rs w1 ->
  Forall (fun e => in_loop e = true) t.
Proof.
  induction 1 as [|i p rest results w t1 added w1 t2 rs w2 Ht _ IH];
    [constructor|].
  apply Forall_app. split; [|exact IH].
  assert (Hcalls : Forall (fun e => in_loop e = true)
                     (trace_of (post_to apis request p w))).
  { eapply Forall_impl; [|apply post_to_calls].
    intros e He. destruct e; cbn in *; try reflexivity; discriminate. }
  assert (Hpause : Forall (fun e => in_loop e = true) (pause options i)).
  { unfold pause. destruct (0 <? i)%nat; repeat constructor. }
  destruct Ht as [t1 e wa Hp|t1 r wa t2' wb Hp Hn|t1 r wa t2' e wb Hp Hn];
    rewrite Hp in Hcalls; cbn [trace_of fst] in Hcalls;
    repeat (apply Forall_app; split); try assumption;
    try (repeat constructor).
  - destruct (notify_normal _ _ _ _ _ _ _ Hn) as [_ ->].
    destruct (success r && given (onPartialSuccess options));
      repeat constructor.
  - destruct (notify_throws _ _ _ _ _ _ _ Hn) as (_ & -> & _).
    repeat constructor.
Qed.

Lemma dispatch_in_loop {W} (apis : PlatformApis W) options request todo
      i results w :
  Forall (fun e => in_loop e = true)
    (trace_of (dispatch apis options request i todo results w)).
Proof.
  destruct (dispatch_looped apis options request todo i results w)
    as (t & rs & w1 & E & L).
  rewrite E. cbn [trace_of fst]. eapply looped_in_loop; eassumption.
Qed.

(** An observer blind to what the loop does sees nothing of it. *)
Lemma loop_unobserved {W B} (f : Event -> option B)
      (apis : PlatformApis W) options request todo i acc w :
  (forall e, in_loop e = true -> f e = None) ->
  filter_map f (trace_of (dispatch apis options request i todo acc w)) = [].
Proof.
  intros Hf. apply (unobserved f in_loop); [exact Hf|].
  apply dispatch_in_loop.
Qed.

(** The pauses of a run are those of its loop. *)
Lemma run_sleeps {W} (apis : PlatformApis W) options request w :
  sleeps (trace_of (submitMultiPlatformPost apis options request w)) =
    match completion_of (validate request w) with
    | Normal _ => repeat (delay options) (length (platforms request) - 1)
    | Throw _ => []
    end.
Proof.
  unfold sleeps. rewrite run_observed
    by (intros e He; destruct e; cbn in He |- *;
        first [reflexivity|discriminate]).
  destruct (completion_of (validate request w)); [|reflexivity].
  destruct (dispatch_looped apis options request (platforms request) 0 [] w)
    as (t & rs & w1 & E & L).
  rewrite E. cbn [trace_of fst opening closing filter_map sleep_of app].
  rewrite !app_nil_r.
  apply (looped_sleeps _ _ _ _ _ _ _ _ _ _ L).
Qed.

(** The progress values of a run: 0 at the start, for a validated request
    10, those of the loop and 100, and 0 at the cleanup. *)
Lemma run_progress {W} (apis : PlatformApis W) options request w :
  published_progress
    (trace_of (submitMultiPlatformPost apis options request w)) =
    match completion_of (validate request w) with
    | Normal _ =>
        (0 :: 10
           :: published_progress
                (trace_of (dispatch apis options request 0
                             (platforms request) [] w))
           ++ [100; 0])%Z
    | Throw _ => [0; 0]%Z
    end.
Proof.
  unfold published_progress. rewrite run_observed
    by (intros e He; destruct e as [| | | | | | | | | | | | | | | |];
        cbn in He |- *; first [reflexivity|discriminate]).
  destruct (completion_of (validate request w)); [|reflexivity].
  cbn [opening closing filter_map progress_of app].
  rewrite <- app_assoc. reflexivity.
Qed.

(** Every run ends with its cleanup. *)
Lemma run_ends_with_cleanup {W} (apis : PlatformApis W) options request w :
  exists body,
    trace_of (submitMultiPlatformPost apis options request w)
      = body ++ closing.
Proof.
  rewrite submit_frame. cbv zeta. cbn [trace_of fst].
  eexists. rewrite app_assoc. reflexivity.
Qed.

End RunObserved.
Import RunObserved.

(** ** Cancellation *)

Module Cancellation.

(** Through the invocation of the hook that started the run,
    [cancelPosting] does what it says. *)
Lemma cancel_in_flight h c :
  abortController h = Some c ->
  isPosting (cells (cancelPosting h)) = false
  /\ uploadProgress (cells (cancelPosting h)) = 0%Z
  /\ postError (cells (cancelPosting h)) = Some "Posting cancelled by user"
  /\ abortController (cancelPosting h) = Some {| aborted := true |}
  /\ results (cells (cancelPosting h)) = results (cells h)
  /\ currentPlatforms (cells (cancelPosting h)) = currentPlatforms (cells h).
Proof. intros H. unfold cancelPosting. rewrite H. cbn. auto 10. Qed.

Lemma replay_app h t1 t2 : replay h (t1 ++ t2) = replay (replay h t1) t2.
Proof. apply fold_left_app. Qed.

Lemma idle_after_run {W} (apis : PlatformApis W) options request w h :
  isPosting
    (cells (replay h (trace_of (submitMultiPlatformPost apis options
                                  request w)))) = false
  /\ uploadProgress
       (cells (replay h (trace_of (submitMultiPlatformPost apis options
                                     request w)))) = 0%Z.
Proof.
  destruct (run_ends_with_cleanup apis options request w) as [body E].
  rewrite E, replay_app. split; reflexivity.
Qed.

End Cancellation.
Import Cancellation.

(** ** While a run is in flight *)

Module InFlight.

Lemma suspension_app P tr1 : forall h tr2,
  at_every_suspension P h tr1 ->
  at_every_suspension P (replay h tr1) tr2 ->
  at_every_suspension P h (tr1 ++ tr2).
Proof.
  induction tr1 as [|e tr1 IH]; intros h tr2 H1 H2; [exact H2|].
  cbn [app at_every_suspension] in *. destruct H1 as [He H1].
  split; [exact He|]. now apply IH.
Qed.

Lemma suspension_free P tr : forall h,
  Forall (fun e => is_await e = false) tr ->
  at_every_suspension P h tr.
Proof.
  induction tr as [|e tr IH]; intros h H; [exact I|].
  inversion H; subst. cbn [at_every_suspension]. split.
  - intros E. congruence.
  - now apply IH.
Qed.

Lemma perform_in_loop h e :
  in_loop e = true -> in_flight h -> in_flight (perform h e).
Proof.
  intros He [Hp Ha]. destruct e; cbn in He; try discriminate;
    split; cbn; assumption.
Qed.

Lemma suspension_in_loop tr : forall h,
  Forall (fun e => in_loop e = true) tr ->
  in_flight h -> at_every_suspension in_flight h tr.
Proof.
  induction tr as [|e tr IH]; intros h H Hf; [exact I|].
  inversion H; subst. cbn [at_every_suspension].
  assert (in_flight (perform h e)) by now apply perform_in_loop.
  split; [auto|]. now apply IH.
Qed.

Lemma settling_no_await tail :
  Forall (fun e => settling e = true) tail ->
  Forall (fun e => is_await e = false) tail.
Proof.
  apply Forall_impl. intros e He.
  destruct e; cbn in He |- *; first [reflexivity|discriminate].
Qed.

(** Each time a run is suspended, the invocation that started it sees it
    in flight. *)
Lemma in_flight_when_suspended {W} (apis : PlatformApis W) options request
      w st :
  at_every_suspension in_flight (useMultiPlatformPost st)
    (trace_of (submitMultiPlatformPost apis options request w)).
Proof.
  destruct (run_shape apis options request w) as (middle & tail & -> & Ht & Hm).
  apply suspension_app; [apply suspension_free; repeat constructor|].
  destruct (completion_of (validate request w)); subst middle.
  - change (SetUploadProgress 10
              :: trace_of (dispatch apis options request 0
                             (platforms request) [] w)
              ++ [SetUploadProgress 100])
      with ((SetUploadProgress 10
               :: trace_of (dispatch apis options request 0
                              (platforms request) [] w))
              ++ [SetUploadProgress 100]).
    rewrite <- !app_assoc.
    apply suspension_app.
    + apply suspension_in_loop; [|split; reflexivity].
      constructor; [reflexivity|apply dispatch_in_loop].
    + apply suspension_free. constructor; [reflexivity|].
      apply Forall_app. split; [now apply settling_no_await|].
      repeat constructor.
  - cbn [app]. apply suspension_free.
    apply Forall_app. split; [now apply settling_no_await|].
    repeat constructor.
Qed.

Lemma suspension_impl (P Q : Instance -> Prop) tr : forall h,
  (forall h', P h' -> Q h') ->
  at_every_suspension P h tr -> at_every_suspension Q h tr.
Proof.
  induction tr as [|e tr IH]; intros h HPQ H; [exact I|].
  cbn [at_every_suspension] in *. destruct H as [He H].
  split; [auto|]. now apply IH.
Qed.

End InFlight.
Import InFlight.

(** ** Outcomes *)

Module Outcomes.

Ltac blind_to_loop :=
  let e := fresh "e" in
  let He := fresh "He" in
  intros e He; destruct e; cbn in He |- *;
  first [reflexivity | discriminate].

Lemma validated {W} request (w : W) :
  platforms request <> [] ->
  substack_untitled request = false ->
  validate request w = ([], Normal tt, w).
Proof.
  intros Hne Hok. rewrite validate_nonempty by assumption. now rewrite Hok.
Qed.

(** The response that follows the loop is the one built of its results,
    or the failed one of the outer [catch]. *)
Lemma settle_response {W} (options : UseMultiPlatformPostOptions W) request
      rs w response :
  completion_of (settle options request rs w) = Normal response ->
  response = build_response request rs
  \/ exists msg, response = failedResponse request msg.
Proof.
  unfold settle.
  destruct (conclude options request rs w) as [[t [r|e]] w1] eqn:Ec.
  - rewrite (try_catch_normal _ _ _ _ _ _ Ec). cbn. intros H.
    inversion H; subst. left.
    pose proof (conclude_spec options request rs w) as Hc. cbv zeta in Hc.
    rewrite Ec in Hc.
    destruct (resp_success (build_response request rs)).
    + destruct (invoke_if_given _ _ _ w) as [[t' [u|e']] w']; now inversion Hc.
    + destruct (0 <? length (filter success rs))%nat; [|discriminate].
      destruct (invoke_if_given _ _ _ w) as [[t' [u|e']] w']; now inversion Hc.
  - rewrite (try_catch_throw _ _ _ _ _ _ Ec).
    change (completion_of (recover options request e w1) = Normal response ->
            response = build_response request rs
            \/ exists msg, response = failedResponse request msg).
    pose proof (proj2 (recover_outcome options request e w1)) as H.
    intros E. rewrite E in H. right. eauto.
Qed.

(** When [onError] returns, what follows the loop ends with a response. *)
Lemma settle_resolves {W} (options : UseMultiPlatformPostOptions W) request
      rs w :
  returns (onError options) ->
  exists response,
    completion_of (settle options request rs w) = Normal response.
Proof.
  intros Hret.
  destruct (completion_of (settle options request rs w)) as [r|e] eqn:E;
    [now exists r|].
  destruct (settle_rejects options request rs w e E)
    as (f & msg & w0 & w1 & Hf & Hc).
  specialize (Hret f msg w0 Hf). rewrite Hc in Hret. discriminate.
Qed.

(** The promise resolves when [onError] returns. *)
Lemma run_resolves {W} (apis : PlatformApis W) options request w :
  returns (onError options) ->
  exists tr response w',
    submitMultiPlatformPost apis options request w
      = (tr, Normal response, w').
Proof.
  intros Hret.
  destruct (validate_outcome request w) as [Hv|[msg Hv]].
  - destruct (dispatch_looped apis options request (platforms request) 0 [] w)
      as (t & rs & w1 & Hd & _).
    rewrite (submit_valid apis options request w t _ w1 Hv Hd).
    destruct (settle_resolves options request ([] ++ rs) w1 Hret) as [r ->].
    eauto.
  - destruct (submit_invalid_returns apis options request w _ Hret Hv)
      as [w1 ->].
    eauto.
Qed.

(** The promise rejects only with what [onError] threw. *)
Lemma run_rejects {W} (apis : PlatformApis W) options request w e :
  completion_of (submitMultiPlatformPost apis options request w) = Throw e ->
  exists f msg w0 w1,
    onError options = Some f /\ f msg w0 = (Throw e, w1).
Proof.
  destruct (validate_outcome request w) as [Hv|[msg Hv]].
  - destruct (dispatch_looped apis options request (platforms request) 0 [] w)
      as (t & rs & w1 & Hd & _).
    rewrite (submit_valid apis options request w t _ w1 Hv Hd).
    apply settle_rejects.
  - rewrite (submit_invalid apis options request w _ Hv).
    change (completion_of (recover options request (ErrorObj msg) w)
              = Throw e ->
            exists f msg0 w0 w1,
              onError options = Some f /\ f msg0 w0 = (Throw e, w1)).
    pose proof (proj2 (recover_outcome options request (ErrorObj msg) w))
      as H.
    intros E. rewrite E in H. destruct H as (f & w1 & Hf & Hc).
    now exists f, (errorMessage (ErrorObj msg)), w, w1.
Qed.

(** A response returned by a run is the failed one of the outer [catch],
    or the one built of the results of the loop. *)
Lemma run_response {W} (apis : PlatformApis W) options request w response :
  completion_of (submitMultiPlatformPost apis options request w)
    = Normal response ->
  (exists msg, response = failedResponse request msg)
  \/ (exists t rs w1,
        validate request w = ([], Normal tt, w)
        /\ dispatch apis options request 0 (platforms request) [] w
           = (t, Normal rs, w1)
        /\ response = build_response request rs).
Proof.
  destruct (validate_outcome request w) as [Hv|[msg Hv]].
  - destruct (dispatch_looped apis options request (platforms request) 0 [] w)
      as (t & rs & w1 & Hd & _).
    rewrite (submit_valid apis options request w t _ w1 Hv Hd).
    change (completion_of (settle options request ([] ++ rs) w1)
              = Normal response ->
            (exists msg, response = failedResponse request msg)
            \/ (exists t0 rs0 w0,
                  validate request w = ([], Normal tt, w)
                  /\ dispatch apis options request 0 (platforms request) [] w
                     = (t0, Normal rs0, w0)
                  /\ response = build_response request rs0)).
    intros E. destruct (settle_response _ _ _ _ _ E) as [->|H];
      [right; eauto 10|now left].
  - rewrite (submit_invalid apis options request w _ Hv).
    change (completion_of (recover options request (ErrorObj msg) w)
              = Normal response ->
            (exists msg, response = failedResponse request msg)
            \/ (exists t0 rs0 w0,
                  validate request w = ([], Normal tt, w)
                  /\ dispatch apis options request 0 (platforms request) [] w
                     = (t0, Normal rs0, w0)
                  /\ response = build_response request rs0)).
    pose proof (proj2 (recover_outcome options request (ErrorObj msg) w))
      as H.
    intros E. rewrite E in H. left. eauto.
Qed.

(** No platform succeeded: the body throws the fatal error, and the outer
    [catch] answers with the failed response when [onError] returns. *)
Lemma conclude_total_failure {W} (options : UseMultiPlatformPostOptions W)
      request rs w :
  rs <> [] ->
  Forall (fun r => success r = false) rs ->
  conclude options request rs w =
    ([SetUploadProgress 100],
     Throw (ErrorObj (total_failure_message rs)), w).
Proof.
  intros Hne Hall. rewrite conclude_spec. cbv zeta.
  unfold build_response. cbn [resp_success]. fold (failures rs).
  rewrite (all_failed_failures rs Hall), (all_failed_no_success rs Hall).
  destruct rs as [|r rs]; [congruence|]. reflexivity.
Qed.

Lemma attempt_all_valid {W} (apis : PlatformApis W) options request w
      t rs w1 :
  validate request w = ([], Normal tt, w) ->
  dispatch apis options request 0 (platforms request) [] w
    = (t, Normal rs, w1) ->
  attempt_all apis options request w =
    (SetUploadProgress 10 :: t ++ trace_of (conclude options request rs w1),
     completion_of (conclude options request rs w1),
     world_of (conclude options request rs w1)).
Proof.
  intros Hv Hd. unfold attempt_all.
  erewrite bind_resume by exact Hv. cbn [app].
  unfold bind at 1. unfold emit at 1. cbv beta iota.
  erewrite bind_resume by exact Hd.
  destruct (conclude options request rs w1) as [[t2 c] w2]. reflexivity.
Qed.

End Outcomes.
Import Outcomes.

(** ** One turn, seen from outside *)

Module Turns.

(** A turn starts with its pause, and pauses at no other time. *)
Lemma iteration_pause {W} (apis : PlatformApis W) options request i p
      results w :
  exists rest,
    trace_of (iteration apis options request i p results w)
      = pause options i ++ rest
    /\ sleeps rest = [].
Proof.
  destruct (iteration_turned apis options request i p results w)
    as (t & added & w1 & E & Ht).
  rewrite E. cbn [trace_of fst].
  destruct (turned_observed sleep_of _ _ _ _ _ _ _ _ _ _ Ht)
    as (tp & tail & Etp & -> & Htail).
  exists (tp ++ tail). split; [reflexivity|].
  unfold sleeps. rewrite filter_map_app. rewrite <- Etp.
  rewrite (calls_publish_nothing sleep_of _ call_no_sleep
             (post_to_calls apis request p w)).
  clear -Htail. induction Htail as [|e l [_ He] _ IH]; [reflexivity|].
  cbn. now rewrite He.
Qed.

(** A turn whose attempt throws [e] at once, before anything is sent. *)
Lemma iteration_throws_at_once {W} (apis : PlatformApis W) options request
      i p results w t e w1 :
  post_to apis request p w = (t, Throw e, w1) ->
  iteration apis options request i p results w =
    ((if (0 <? i)%nat then [Sleep (delay options)] else [])
       ++ t
       ++ [ConsoleError ("Error posting to " ++ p ++ ":")%string e;
           SetResults (results ++ [errorResult p e])],
     Normal (results ++ [errorResult p e]), w1).
Proof. intros H. rewrite iteration_spec, H. reflexivity. Qed.

End Turns.
Import Turns.

(** ** What the loop lets the outside see *)

Module LoopObserved.








End LoopObserved.
Import LoopObserved.

(** ** Verdicts *)

Module Verdicts.

Lemma rebuilt_results rs :
  map (fun r => {| platform := platform r; success := success r;
                   data := data r; error := error r |}) rs = rs.
Proof.
  induction rs as [|[p s d e] rs IH]; [reflexivity|].
  cbn. now rewrite IH.
Qed.

Lemma all_succeeded rs :
  Forall (fun r => success r = true) rs ->
  failures rs = [] /\ filter success rs = rs.
Proof.
  unfold failures. induction 1 as [|r rs Hr _ [IH1 IH2]]; [now split|].
  cbn [filter]. rewrite Hr. cbn [negb]. now rewrite IH1, IH2.
Qed.

(** Every platform succeeded. *)
Lemma aftermath_full_success {W} (options : UseMultiPlatformPostOptions W) request rs :
  Forall (fun r => success r = true) rs ->
  aftermath options request rs =
    ([SetPostSuccess true]
       ++ (if given (onSuccess options)
           then [OnSuccess (build_response request rs)] else [])
       ++ [SetTimeout ClearPostSuccess 5000],
     build_response request rs)
  /\ build_response request rs =
       {| resp_success := true;
          resp_results := rs;
          resp_message :=
            ("Successfully posted to all " ++ string_of_nat (length rs)
               ++ " platform(s)!")%string |}.
Proof.
  intros Hall. destruct (all_succeeded rs Hall) as [Hf Hs].
  assert (E : build_response request rs =
              {| resp_success := true;
                 resp_results := rs;
                 resp_message :=
                   ("Successfully posted to all " ++ string_of_nat (length rs)
                      ++ " platform(s)!")%string |}).
  { unfold build_response. fold (failures rs).
    rewrite Hf, Hs, rebuilt_results. reflexivity. }
  split; [|exact E].
  unfold aftermath. rewrite E. reflexivity.
Qed.

Lemma some_failed rs :
  existsb (fun r => negb (success r)) rs = true ->
  (length (failures rs) =? 0)%nat = false.
Proof.
  intros H. apply existsb_exists in H. destruct H as (r & Hin & Hr).
  assert (In r (failures rs)) as Hf by (apply filter_In; now split).
  destruct (failures rs); [contradiction|reflexivity].
Qed.

Lemma some_succeeded rs :
  existsb success rs = true ->
  (0 <? length (filter success rs))%nat = true.
Proof.
  intros H. apply existsb_exists in H. destruct H as (r & Hin & Hr).
  assert (In r (filter success rs)) as Hf by (apply filter_In; now split).
  destruct (filter success rs); [contradiction|reflexivity].
Qed.

(** Some platforms succeeded and some failed. *)
Lemma aftermath_partial {W} (options : UseMultiPlatformPostOptions W) request rs :
  existsb success rs = true ->
  existsb (fun r => negb (success r)) rs = true ->
  aftermath options request rs =
    ((if given (onPartialSuccess options) then [OnPartialSuccess rs] else [])
       ++ [SetTimeout ClearPostSuccess 5000],
     build_response request rs)
  /\ build_response request rs =
       {| resp_success := false;
          resp_results := rs;
          resp_message :=
            ("Posted to " ++ string_of_nat (length (filter success rs))
               ++ "/" ++ string_of_nat (length (platforms request))
               ++ " platform(s). "
               ++ string_of_nat (length (failures rs)) ++ " failed.")%string
       |}.
Proof.
  intros Hs Hf.
  assert (E : build_response request rs =
       {| resp_success := false;
          resp_results := rs;
          resp_message :=
            ("Posted to " ++ string_of_nat (length (filter success rs))
               ++ "/" ++ string_of_nat (length (platforms request))
               ++ " platform(s). "
               ++ string_of_nat (length (failures rs)) ++ " failed.")%string
       |}).
  { unfold build_response. fold (failures rs).
    rewrite (some_failed rs Hf), rebuilt_results. reflexivity. }
  split; [|exact E].
  unfold aftermath. rewrite E. cbn [resp_success].
  now rewrite (some_succeeded rs Hs).
Qed.

Lemma last_default_irrelevant {A} (l : list A) (d d' : A) :
  l <> [] -> last l d = last l d'.
Proof.
  induction l as [|a l IH]; [congruence|]. intros _.
  destruct l as [|b l]; [reflexivity|].
  cbn [last] in *. apply IH. discriminate.
Qed.

(** A cell holds what was last written to it. *)
Lemma replay_last {V} (g : HookState -> V) (f : Event -> option V) :
  (forall h e, g (cells (perform h e)) =
               match f e with Some v => v | None => g (cells h) end) ->
  forall tr h,
    g (cells (replay h tr)) = last (filter_map f tr) (g (cells h)).
Proof.
  intros Hg. induction tr as [|e tr IH]; intros h; [reflexivity|].
  cbn [replay fold_left filter_map].
  change (fold_left perform tr (perform h e)) with (replay (perform h e) tr).
  rewrite IH, Hg. destruct (f e) as [v|]; [|reflexivity].
  destruct (filter_map f tr) as [|v0 l] eqn:E; [reflexivity|].
  change (last (v :: v0 :: l) (g (cells h)))
    with (last (v0 :: l) (g (cells h))).
  apply last_default_irrelevant. discriminate.
Qed.


Lemma none_exists_all {A} (f : A -> bool) l :
  existsb f l = false -> Forall (fun x => f x = false) l.
Proof.
  induction l as [|x l IH]; cbn; intros H; constructor;
    apply orb_false_iff in H; [tauto|apply IH; tauto].
Qed.

Lemma outcome_cases rs :
  Forall (fun r => success r = true) rs
  \/ (existsb success rs = true
      /\ existsb (fun r => negb (success r)) rs = true)
  \/ Forall (fun r => success r = false) rs.
Proof.
  destruct (existsb success rs) eqn:Es.
  - destruct (existsb (fun r => negb (success r)) rs) eqn:Ef.
    + right. left. now split.
    + left. apply none_exists_all in Ef.
      eapply Forall_impl; [|exact Ef]. cbv beta. intros r Hr.
      now destruct (success r).
  - right. right. now apply none_exists_all.
Qed.

Lemma perform_post_success h e :
  postSuccess (cells (perform h e)) =
    match post_success_of e with
    | Some v => v
    | None => postSuccess (cells h)
    end.
Proof. destruct e; reflexivity. Qed.

Lemma perform_post_error h e :
  postError (cells (perform h e)) =
    match post_error_of e with
    | Some v => v
    | None => postError (cells h)
    end.
Proof. destruct e; reflexivity. Qed.






End Verdicts.
Import Verdicts.

(** ** How a run ends when the callbacks return *)

Module Endings.

(** An observer blind to the loop sees the start of a validated run, what
    follows the loop, and the cleanup. *)
Lemma valid_run_around_loop {W B} (f : Event -> option B)
      (apis : PlatformApis W) options request w t rs w1 :
  (forall e, in_loop e = true -> f e = None) ->
  validate request w = ([], Normal tt, w) ->
  dispatch apis options request 0 (platforms request) [] w
    = (t, Normal rs, w1) ->
  filter_map f (trace_of (submitMultiPlatformPost apis options request w)) =
    filter_map f (opening request)
    ++ filter_map f (trace_of (settle options request rs w1))
    ++ filter_map f closing.
Proof.
  intros Hf Hv Hd.
  rewrite (submit_valid apis options request w t rs w1 Hv Hd).
  cbn [trace_of fst].
  change (SetUploadProgress 10 :: t
            ++ trace_of (settle options request rs w1) ++ closing)
    with ([SetUploadProgress 10] ++ t
            ++ trace_of (settle options request rs w1) ++ closing).
  rewrite !filter_map_app.
  pose proof (loop_unobserved f apis options request (platforms request)
                0 [] w Hf) as L.
  rewrite Hd in L. cbn [trace_of fst] in L. rewrite L.
  cbn [filter_map]. rewrite (Hf (SetUploadProgress 10) eq_refl).
  reflexivity.
Qed.

(** When the callbacks return, every run ends in one of the four ways,
    and an observer blind to the loop sees exactly the actions listed for
    that way. *)
Lemma run_ending {W} (apis : PlatformApis W) options request w :
  callbacks_return options ->
  exists tr response w' around,
    submitMultiPlatformPost apis options request w
      = (tr, Normal response, w')
    /\ Ending apis options request w around response
    /\ forall B (f : Event -> option B),
         (forall e, in_loop e = true -> f e = None) ->
         filter_map f tr = filter_map f around.
Proof.
  intros Hret.
  destruct (validate_outcome request w) as [Hv|[msg Hv]].
  - destruct (dispatch_looped apis options request (platforms request) 0 [] w)
      as (t & rs & w1 & Hd & L).
    cbn [app] in Hd.
    assert (Hne : rs <> []).
    { eapply entries_nonempty; [eapply looped_entries; eassumption|].
      intros E. rewrite (validate_empty request w E) in Hv. discriminate. }
    assert (Hvc : completion_of (validate request w) = Normal tt)
      by now rewrite Hv.
    assert (Hdc : completion_of
                    (dispatch apis options request 0 (platforms request) [] w)
                  = Normal rs) by now rewrite Hd.
    destruct (submit_valid_returns apis options request w t rs w1 Hret Hv Hd)
      as [w2 Hs].
    destruct (settle_returns options request rs w1 Hret) as [w3 Hset].
    assert (Hf : forall around,
               around = opening request
                        ++ fst (aftermath options request rs) ++ closing ->
               forall B (f : Event -> option B),
                 (forall e, in_loop e = true -> f e = None) ->
                 filter_map f (trace_of (submitMultiPlatformPost apis options
                                           request w))
                 = filter_map f around).
    { intros around -> B f Hblind.
      rewrite (valid_run_around_loop f apis options request w t rs w1
                 Hblind Hv Hd).
      rewrite Hset. cbn [trace_of fst filter_map].
      rewrite (Hblind (SetUploadProgress 100) eq_refl).
      now rewrite !filter_map_app. }
    exists (trace_of (submitMultiPlatformPost apis options request w)),
           (snd (aftermath options request rs)), w2.
    destruct (outcome_cases rs) as [Hall|[[Hsome Hfail]|Hnone]].
    + destruct (aftermath_full_success options request rs Hall) as [Ha _].
      exists (around_success options request (build_response request rs)).
      split; [rewrite Hs; reflexivity|]. split.
      * rewrite Ha. cbn [snd]. now apply AllSucceeded.
      * apply Hf. rewrite Ha. reflexivity.
    + destruct (aftermath_partial options request rs Hsome Hfail) as [Ha _].
      exists (around_partial options request rs).
      split; [rewrite Hs; reflexivity|]. split.
      * rewrite Ha. cbn [snd]. now apply SomeFailed.
      * apply Hf. rewrite Ha. reflexivity.
    + pose proof (aftermath_total_failure options request rs Hne Hnone) as Ha.
      exists (around_failure options request (total_failure_message rs)).
      split; [rewrite Hs; reflexivity|]. split.
      * rewrite Ha. cbn [snd]. now apply AllFailed.
      * apply Hf. rewrite Ha. reflexivity.
  - destruct (submit_invalid_returns apis options request w _
                (proj1 (proj2 Hret)) Hv) as [w1 Hs].
    exists (trace_of (submitMultiPlatformPost apis options request w)),
           (failedResponse request msg), w1,
           (around_failure options request msg).
    split; [now rewrite Hs|].
    split; [now apply Invalid|].
    intros B f _. rewrite Hs. reflexivity.
Qed.

End Endings.
Import Endings.
(** ** Notices and published results of a whole run *)

Module Notices.



End Notices.
Import Notices.


(** ** Trimming *)

Module Trim.

Lemma trim_start_spec s :
  exists lead,
    s = lead ++ trim_start s
    /\ Forall (fun c => is_white_space c = true) lead
    /\ forall c rest, trim_start s = c :: rest -> is_white_space c = false.
Proof.
  induction s as [|c s (lead & E & Hl & Hh)].
  - exists []. repeat split; [constructor|discriminate].
  - cbn [trim_start]. destruct (is_white_space c) eqn:Ec.
    + exists (c :: lead). split; [cbn; now rewrite <- E|].
      split; [now constructor|exact Hh].
    + exists []. split; [reflexivity|]. split; [constructor|].
      intros c' rest H. now inversion H; subst.
Qed.

Lemma all_rev {A} (P : A -> Prop) l : Forall P l -> Forall P (rev l).
Proof.
  intros H. apply Forall_forall. intros x Hx.
  apply in_rev in Hx. revert x Hx. now apply Forall_forall.
Qed.

Lemma trim_end_spec s :
  exists trail,
    s = trim_end s ++ trail
    /\ Forall (fun c => is_white_space c = true) trail
    /\ forall c before, trim_end s = before ++ [c] -> is_white_space c = false.
Proof.
  unfold trim_end.
  destruct (trim_start_spec (rev s)) as (lead & E & Hl & Hh).
  exists (rev lead). split; [|split].
  - rewrite <- rev_app_distr, <- E. now rewrite rev_involutive.
  - now apply all_rev.
  - intros c before H. apply (Hh c (rev before)).
    rewrite <- (rev_involutive (trim_start (rev s))), H.
    now rewrite rev_app_distr.
Qed.

(** [trim] removes the white space at both ends, and nothing else. *)
Lemma trim_spec s : trimmed_of s (trim s).
Proof.
  unfold trim.
  destruct (trim_start_spec s) as (lead & E1 & Hl & Hh).
  destruct (trim_end_spec (trim_start s)) as (trail & E2 & Ht & He).
  exists lead, trail. split; [now rewrite <- E2|].
  split; [exact Hl|]. split; [exact Ht|]. split; [|exact He].
  intros c rest H. apply (Hh c (rest ++ trail)).
  rewrite E2 at 1. now rewrite H.
Qed.

Lemma is_white_space_iff c :
  is_white_space c = true <-> In c white_space.
Proof.
  unfold is_white_space. rewrite existsb_exists. split.
  - intros (x & Hx & E). apply N.eqb_eq in E. now subst x.
  - intros H. exists c. split; [exact H|apply N.eqb_refl].
Qed.

End Trim.
Import Trim.

(** ** What is sent to the clients *)

Module Sent.

Ltac only_calls :=
  let e := fresh "e" in
  let He := fresh "He" in
  intros e He; destruct e; cbn in He |- *;
  first [reflexivity | discriminate].

Lemma post_to_x_spec {W} (apis : PlatformApis W) request w :
  trace_of (post_to apis request "x" w)
    = [CallCreateTweet (tweetData (content request))].
Proof.
  unfold post_to. cbn [String.eqb Ascii.eqb Bool.eqb].
  unfold post_to_x, bind, await, ret, trace_of. cbv zeta.
  destruct (xApi_createTweet apis (tweetData (content request)) w)
    as [[r|e] w1]; reflexivity.
Qed.

(** The attempts for the other platforms send no tweet. *)
Lemma post_to_other_no_tweet {W} (apis : PlatformApis W) request p w :
  p <> "x" -> tweets (trace_of (post_to apis request p w)) = [].
Proof.
  intros Hp. unfold post_to.
  destruct (p =? "linkedin")%string;
    [|destruct (p =? "x")%string eqn:E;
      [apply String.eqb_eq in E; congruence
      |destruct (p =? "substack")%string]].
  - unfold post_to_linkedin, upload_linkedin_media, bind, await, throw, ret,
      trace_of.
    case_analysis; reflexivity.
  - unfold post_to_substack, bind, await, read, throw, ret, trace_of.
    case_analysis; reflexivity.
  - reflexivity.
Qed.

(** A turn seen through an observer of client calls: what its attempt
    sends. *)
Lemma turned_sent {W B} (f : Event -> option B)
      (apis : PlatformApis W) options request i p results w t added w1 :
  (forall e, is_network_call e = false -> f e = None) ->
  Turned apis options request i p results w t added w1 ->
  filter_map f t = filter_map f (trace_of (post_to apis request p w)).
Proof.
  intros Hf Ht.
  destruct (turned_observed f _ _ _ _ _ _ _ _ _ _ Ht)
    as (tp & tail & Etp & -> & Htail).
  rewrite !filter_map_app, Etp.
  assert (E1 : filter_map f (pause options i) = []).
  { unfold pause. destruct (0 <? i)%nat; cbn;
      rewrite ?Hf by reflexivity; reflexivity. }
  assert (E2 : filter_map f tail = []).
  { clear -Hf Htail. induction Htail as [|e l [He _] _ IH]; [reflexivity|].
    cbn. now rewrite (Hf e He). }
  rewrite E1, E2. cbn [app]. apply app_nil_r.
Qed.

(** One tweet for every entry "x" of the list, none for another entry. *)
Lemma looped_tweets {W} (apis : PlatformApis W) options request i todo
      results w t rs w1 :
  Looped apis options request i todo results w t rs w1 ->
  tweets t = repeat (tweetData (content request))
                    (count_occ string_dec todo "x").
Proof.
  induction 1 as [|i p rest results w t1 added w1 t2 rs w2 Ht _ IH];
    [reflexivity|].
  unfold tweets in *. rewrite filter_map_app, IH.
  rewrite (turned_sent tweet_of _ _ _ _ _ _ _ _ _ _ ltac:(only_calls) Ht).
  cbn [count_occ].
  destruct (string_dec p "x") as [->|Hp].
  - rewrite post_to_x_spec. reflexivity.
  - fold (tweets (trace_of (post_to apis request p w))).
    rewrite (post_to_other_no_tweet apis request p w Hp). reflexivity.
Qed.

(** What a run sends, seen through an observer of client calls: nothing
    but what its loop sends. *)
Lemma run_sent {W B} (f : Event -> option B)
      (apis : PlatformApis W) options request w :
  (forall e, is_network_call e = false -> f e = None) ->
  filter_map f (trace_of (submitMultiPlatformPost apis options request w)) =
    match completion_of (validate request w) with
    | Normal _ =>
        filter_map f
          (trace_of (dispatch apis options request 0 (platforms request)
                       [] w))
    | Throw _ => []
    end.
Proof.
  intros Hf.
  rewrite run_observed
    by (intros e He; apply Hf; destruct e; cbn in He |- *;
        first [reflexivity|discriminate]).
  cbn [opening closing filter_map]. rewrite !Hf by reflexivity.
  cbn [app].
  destruct (completion_of (validate request w)); [|reflexivity].
  now rewrite !app_nil_r.
Qed.

End Sent.
Import Sent.

(** ** What is sent to Substack *)

Module SentSubstack.

Lemma truthy_value o :
  truthy o = true -> or_else o "" <> "" /\ o = Some (or_else o "").
Proof.
  destruct o as [[|c s]|]; cbn; intros H; try discriminate.
  split; [discriminate|reflexivity].
Qed.

Lemma post_to_substack_sent {W} (apis : PlatformApis W) request w :
  Forall (guarded_substack_post request)
    (substack_posts (trace_of (post_to apis request "substack" w)))
  /\ length (substack_posts (trace_of (post_to apis request "substack" w)))
     <= 1
  /\ (truthy (localStorage_getItem apis "substackSessionId" w) = false ->
      trace_of (post_to apis request "substack" w) = []).
Proof.
  unfold post_to. cbn [String.eqb Ascii.eqb Bool.eqb].
  unfold post_to_substack, bind, read, throw.
  destruct (substack (platformSpecific request)) as [s|] eqn:Es;
    [|cbn; repeat split; try lia; constructor].
  destruct (truthy (title s)) eqn:Et; [|cbn; repeat split; try lia; constructor].
  destruct (truthy (localStorage_getItem apis "substackSessionId" w)) eqn:El;
    [|cbn; repeat split; try lia; constructor].
  destruct (truthy_value _ Et) as [Ht1 Ht2].
  destruct (truthy_value _ El) as [Hl1 Hl2].
  unfold await, ret. cbv zeta.
  destruct (substackApi_createPost apis _ _ w) as [[r|e] w1];
    cbn; (split; [|split; [lia|discriminate]]);
    (apply Forall_cons; [|constructor]);
    unfold guarded_substack_post; cbn [fst snd ss_title ss_content
                                       ss_subtitle ss_isDraft substackData];
    (split; [exact Hl1|split; [exact Ht1|split; [apply trim_spec|]]]);
    exists s; repeat split; assumption.
Qed.

Lemma post_to_other_no_substack {W} (apis : PlatformApis W) request p w :
  p <> "substack" ->
  substack_posts (trace_of (post_to apis request p w)) = [].
Proof.
  intros Hp. unfold post_to.
  destruct (p =? "linkedin")%string;
    [|destruct (p =? "x")%string;
      [|destruct (p =? "substack")%string eqn:E;
        [apply String.eqb_eq in E; congruence|]]].
  - unfold post_to_linkedin, upload_linkedin_media, bind, await, throw, ret,
      trace_of.
    case_analysis; reflexivity.
  - unfold post_to_x, bind, await, ret, trace_of.
    case_analysis; reflexivity.
  - reflexivity.
Qed.

Lemma looped_substack_posts {W} (apis : PlatformApis W) options request
      i todo results w t rs w1 :
  Looped apis options request i todo results w t rs w1 ->
  Forall (guarded_substack_post request) (substack_posts t)
  /\ length (substack_posts t) <= count_occ string_dec todo "substack".
Proof.
  induction 1 as [|i p rest results w t1 added w1 t2 rs w2 Ht _ [IH1 IH2]].
  - cbn. split; [constructor|lia].
  - unfold substack_posts in *. rewrite filter_map_app.
    rewrite (turned_sent substack_post_of _ _ _ _ _ _ _ _ _ _
               ltac:(only_calls) Ht).
    rewrite length_app. cbn [count_occ].
    destruct (string_dec p "substack") as [->|Hp].
    + destruct (post_to_substack_sent apis request w) as (H1 & H2 & _).
      unfold substack_posts in H1, H2.
      split; [apply Forall_app; now split|lia].
    + pose proof (post_to_other_no_substack apis request p w Hp) as E.
      unfold substack_posts in E. rewrite E.
      cbn [app length]. split; [assumption|lia].
Qed.

End SentSubstack.
Import SentSubstack.

(** ** The shape of the results *)

Module Shape.

Lemma result_of_response_well_formed p response :
  well_formed_result (result_of_response p response).
Proof.
  unfold well_formed_result, result_of_response. cbn.
  split.
  - intros ->. split; [reflexivity|discriminate].
  - discriminate.
Qed.

Lemma errorResult_well_formed p e : well_formed_result (errorResult p e).
Proof.
  unfold well_formed_result, errorResult. cbn.
  split; [discriminate|]. intros _. split; [reflexivity|discriminate].
Qed.

(** What the [switch] returns is made of a client's response. *)
Lemma post_to_result_shape {W} (apis : PlatformApis W) request p w result :
  completion_of (post_to apis request p w) = Normal result ->
  exists response, result = result_of_response p response.
Proof.
  unfold post_to.
  destruct (p =? "linkedin")%string eqn:E1;
    [|destruct (p =? "x")%string eqn:E2;
      [|destruct (p =? "substack")%string eqn:E3]].
  - apply String.eqb_eq in E1. subst p.
    unfold post_to_linkedin, upload_linkedin_media, bind, await, throw, ret,
      completion_of.
    case_analysis; cbn; intros H; inversion H; eauto.
  - apply String.eqb_eq in E2. subst p.
    unfold post_to_x, bind, await, ret, completion_of.
    case_analysis; cbn; intros H; inversion H; eauto.
  - apply String.eqb_eq in E3. subst p.
    unfold post_to_substack, bind, await, read, throw, ret, completion_of.
    case_analysis; cbn; intros H; inversion H; eauto.
  - cbn. discriminate.
Qed.

Lemma attempt_well_formed {W} (apis : PlatformApis W) request p w t r w1 :
  post_to apis request p w = (t, Normal r, w1) -> well_formed_result r.
Proof.
  intros H.
  destruct (post_to_result_shape apis request p w r) as [response ->].
  - now rewrite H.
  - apply result_of_response_well_formed.
Qed.

Lemma looped_well_formed {W} (apis : PlatformApis W) options request
      i todo results w t rs w1 :
  Looped apis options request i todo results w t rs w1 ->
  Forall well_formed_result rs.
Proof.
  induction 1 as [|i p rest results w t1 added w1 t2 rs w2 Ht _ IH];
    [constructor|].
  apply Forall_app. split; [|exact IH].
  destruct Ht as [t1 e wa Hp|t1 r wa t2' wb Hp Hn|t1 r wa t2' e wb Hp Hn].
  - constructor; [apply errorResult_well_formed|constructor].
  - constructor; [eapply attempt_well_formed; eassumption|constructor].
  - constructor; [eapply attempt_well_formed; eassumption|].
    constructor; [apply errorResult_well_formed|constructor].
Qed.

Lemma failedResponse_well_formed request msg :
  Forall well_formed_result (resp_results (failedResponse request msg)).
Proof.
  unfold failedResponse. cbn [resp_results].
  induction (platforms request) as [|p ps IH]; constructor; [|exact IH].
  unfold well_formed_result. cbn.
  split; [discriminate|]. intros _. split; [reflexivity|discriminate].
Qed.

End Shape.
Import Shape.

(** ** What follows the loop, by verdict *)

Module Settling.


(** Every platform succeeded and [onSuccess] throws: the outer [catch]
    takes over. *)
Lemma settle_success_disturbed {W} (options : UseMultiPlatformPostOptions W)
      request rs w f e w1 :
  Forall (fun r => success r = true) rs ->
  onSuccess options = Some f ->
  f (build_response request rs) w = (Throw e, w1) ->
  settle options request rs w =
    (SetUploadProgress 100 :: SetPostSuccess true
       :: OnSuccess (build_response request rs)
       :: trace_of (recover options request e w1),
     completion_of (recover options request e w1),
     world_of (recover options request e w1)).
Proof.
  intros Hall Hf He.
  destruct (aftermath_full_success options request rs Hall) as [_ Hb].
  pose proof (conclude_spec options request rs w) as Hc. cbv zeta in Hc.
  rewrite Hb in Hc at 1. cbn [resp_success] in Hc.
  rewrite Hf in Hc. cbn [invoke_if_given] in Hc. unfold invoke in Hc.
  rewrite He in Hc.
  unfold settle. rewrite (try_catch_throw _ _ _ _ _ _ Hc). reflexivity.
Qed.


(** The same when [onPartialSuccess] moreover leaves the world alone: the
    other two callbacks are not called. *)
Lemma settle_partial_observer {W} (options : UseMultiPlatformPostOptions W)
      request rs w :
  existsb success rs = true ->
  existsb (fun r => negb (success r)) rs = true ->
  observer (onPartialSuccess options) ->
  settle options request rs w =
    (SetUploadProgress 100 :: fst (aftermath options request rs),
     Normal (snd (aftermath options request rs)), w).
Proof.
  intros Hs Hf Hobs.
  destruct (aftermath_partial options request rs Hs Hf) as [Ha Hb].
  pose proof (conclude_spec options request rs w) as Hc. cbv zeta in Hc.
  rewrite Ha. rewrite Hb in Hc at 1. cbn [resp_success fst snd] in Hc |- *.
  rewrite (some_succeeded rs Hs) in Hc.
  rewrite (invoke_if_given_observer _ _ _ w Hobs) in Hc.
  unfold settle.
  now rewrite (try_catch_normal _ _ _ _ _ _ Hc).
Qed.

End Settling.
Import Settling.

(** * The specification, statement by statement *)




(** C2, as stated, fails.  The outer [catch] calls the caller's [onError]
    and nothing catches what that throws: with no platform selected and an
    [onError] that throws, the promise rejects and no response is
    returned. *)
Lemma invalid_request_rejects_when_onError_throws :
  platforms (Sample.post []) = []
  /\ completion_of
       (submitMultiPlatformPost (@Sample.all_ok unit)
          Scenario.error_handler_throws (Sample.post []) tt)
     = Throw (ErrorObj "handler failed")
  /\ forall response,
       completion_of
         (submitMultiPlatformPost (@Sample.all_ok unit)
            Scenario.error_handler_throws (Sample.post []) tt)
       <> Normal response.
Proof.
  split; [reflexivity|]. split; [vm_compute; reflexivity|].
  intros response. vm_compute. discriminate.
Qed.

(** C2, amended.  A request with no platform, or with Substack selected
    and no usable Substack title, fails validation: no client is called and
    the progress is never set to anything but its initial 0.  When
    [onError] returns normally the promise resolves with a response that
    has [success = false], the validation message, and one failed entry
    per requested platform carrying that message; the promise rejects only
    with what [onError] threw. *)
Theorem invalid_request_fails_early {W} (apis : PlatformApis W) options
        request w :
  platforms request = []
  \/ (In "substack" (platforms request)
      /\ truthy (substack_title (platformSpecific request)) = false) ->
  exists msg,
    (msg = "At least one platform must be selected"
     \/ msg = "Substack posts require a title")
    /\ validate request w = ([], Throw (ErrorObj msg), w)
    /\ Forall (fun e => is_network_call e = false)
         (trace_of (submitMultiPlatformPost apis options request w))
    /\ Forall (fun v => v = 0%Z)
         (published_progress
            (trace_of (submitMultiPlatformPost apis options request w)))
    /\ (returns (onError options) ->
        exists tr response w',
          submitMultiPlatformPost apis options request w
            = (tr, Normal response, w')
          /\ resp_success response = false
          /\ resp_message response = msg
          /\ resp_results response =
               map (fun p => {| platform := p; success := false;
                                data := None; error := Some msg |})
                   (platforms request))
    /\ (forall e,
          completion_of (submitMultiPlatformPost apis options request w)
            = Throw e ->
          exists f m w0 w1,
            onError options = Some f /\ f m w0 = (Throw e, w1)).
Proof.
  intros H.
  assert (exists msg,
            (msg = "At least one platform must be selected"
             \/ msg = "Substack posts require a title")
            /\ validate request w = ([], Throw (ErrorObj msg), w))
    as (msg & Hmsg & Hv).
  { destruct H as [Hnil|[Hin Ht]].
    - eexists. split; [left; reflexivity|]. now apply validate_empty.
    - eexists. split; [right; reflexivity|].
      rewrite validate_nonempty.
      + now rewrite (substack_selected_untitled request Hin Ht).
      + intros E. rewrite E in Hin. contradiction. }
  exists msg.
  split; [exact Hmsg|]. split; [exact Hv|].
  split; [|split; [|split]].
  - rewrite (submit_invalid apis options request w _ Hv). cbn [trace_of fst].
    apply Forall_app. split; [repeat constructor|].
    apply Forall_app. split; [|repeat constructor].
    eapply Forall_impl;
      [|apply (recover_outcome options request (ErrorObj msg) w)].
    intros e He. destruct e; cbn in He |- *;
      first [reflexivity|discriminate].
  - rewrite run_progress, Hv. cbn. repeat constructor.
  - intros Hret.
    destruct (submit_invalid_returns apis options request w _ Hret Hv)
      as [w1 E].
    eexists _, _, _. split; [exact E|]. cbn. auto.
  - intros e. apply run_rejects.
Qed.

Lemma invalid_request_fails_early_witness :
  exists msg,
    (msg = "At least one platform must be selected"
     \/ msg = "Substack posts require a title")
    /\ validate (Sample.post ["substack"; "x"]) tt
       = ([], Throw (ErrorObj msg), tt)
    /\ Forall (fun e => is_network_call e = false)
         (trace_of (submitMultiPlatformPost Sample.all_ok
                      Scenario2.all_callbacks
                      (Sample.post ["substack"; "x"]) tt))
    /\ Forall (fun v => v = 0%Z)
         (published_progress
            (trace_of (submitMultiPlatformPost Sample.all_ok
                         Scenario2.all_callbacks
                         (Sample.post ["substack"; "x"]) tt)))
    /\ (returns (onError Scenario2.all_callbacks) ->
        exists tr response w',
          submitMultiPlatformPost Sample.all_ok Scenario2.all_callbacks
            (Sample.post ["substack"; "x"]) tt = (tr, Normal response, w')
          /\ resp_success response = false
          /\ resp_message response = msg
          /\ resp_results response =
               map (fun p => {| platform := p; success := false;
                                data := None; error := Some msg |})
                   ["substack"; "x"])
    /\ (forall e,
          completion_of (submitMultiPlatformPost Sample.all_ok
                           Scenario2.all_callbacks
                           (Sample.post ["substack"; "x"]) tt)
            = Throw e ->
          exists f m w0 w1,
            onError Scenario2.all_callbacks = Some f
            /\ f m w0 = (Throw e, w1)).
Proof.
  apply (invalid_request_fails_early Sample.all_ok Scenario2.all_callbacks
           (Sample.post ["substack"; "x"]) tt).
  right. split; [left; reflexivity|reflexivity].
Defined.

(** C3, as stated, fails for the same reason as C2: when no platform
    succeeds the fatal error is raised and caught by the outer [catch],
    which calls [onError]; if that throws, the promise rejects and there is
    no terminal response. *)
Lemma total_failure_rejects_when_onError_throws :
  Forall (fun r => success r = false)
    [result_of_response "x" (Sample.refused "x is down");
     result_of_response "linkedin" (Sample.refused "rate limited")]
  /\ completion_of
       (dispatch Scenario.both_refuse Scenario.error_handler_throws
          Scenario.x_then_linkedin 0 ["x"; "linkedin"] [] tt)
     = Normal [result_of_response "x" (Sample.refused "x is down");
               result_of_response "linkedin" (Sample.refused "rate limited")]
  /\ completion_of
       (submitMultiPlatformPost Scenario.both_refuse
          Scenario.error_handler_throws Scenario.x_then_linkedin tt)
     = Throw (ErrorObj "handler failed")
  /\ forall response,
       completion_of
         (submitMultiPlatformPost Scenario.both_refuse
            Scenario.error_handler_throws Scenario.x_then_linkedin tt)
       <> Normal response.
Proof.
  split; [repeat constructor|]. split; [vm_compute; reflexivity|].
  split; [vm_compute; reflexivity|].
  intros response. vm_compute. discriminate.
Qed.

(** C3, amended.  When the loop of a validated run of n >= 1 platforms
    ends with no successful result, it holds one failed result per
    platform, and the body throws an error whose message is
    "Failed to post to all platforms: " followed by the platforms' error
    messages joined by ", ": the message of every failed result occurs in
    it.  When [onError] returns normally the promise resolves with a
    response that has [success = false], that message, and n results; the
    promise rejects only with what [onError] threw. *)
Theorem total_failure_is_fatal {W} (apis : PlatformApis W) options request w
        t rs w1 :
  platforms request <> [] ->
  substack_untitled request = false ->
  dispatch apis options request 0 (platforms request) [] w
    = (t, Normal rs, w1) ->
  Forall (fun r => success r = false) rs ->
  let fatal :=
    ("Failed to post to all platforms: "
       ++ join ", " (map (fun r => match error r with
                                   | Some m => m
                                   | None => ""
                                   end) rs))%string in
  map platform rs = platforms request
  /\ completion_of (attempt_all apis options request w)
     = Throw (ErrorObj fatal)
  /\ (forall r m, In r rs -> error r = Some m -> occurs_in m fatal)
  /\ In (SetPostError (Some fatal))
        (trace_of (submitMultiPlatformPost apis options request w))
  /\ (returns (onError options) ->
      exists tr response w',
        submitMultiPlatformPost apis options request w
          = (tr, Normal response, w')
        /\ resp_success response = false
        /\ resp_message response = fatal
        /\ length (resp_results response) = length (platforms request))
  /\ (forall e,
        completion_of (submitMultiPlatformPost apis options request w)
          = Throw e ->
        exists f m w0 w2,
          onError options = Some f /\ f m w0 = (Throw e, w2)).
Proof.
  intros Hne Hok Hd Hall. cbv zeta.
  rewrite <- total_failure_message_exact.
  pose proof (validated request w Hne Hok) as Hv.
  destruct (dispatch_inv _ _ _ _ _ _ _ _ _ _ Hd) as (rs' & E & L).
  cbn [app] in E. subst rs'.
  pose proof (looped_entries _ _ _ _ _ _ _ _ _ _ L) as Hen.
  assert (Hrs : rs <> []) by (eapply entries_nonempty; eassumption).
  pose proof (conclude_total_failure options request rs w1 Hrs Hall) as Hc.
  split; [now apply entries_all_failed|].
  split; [|split; [|split; [|split]]].
  - rewrite (attempt_all_valid apis options request w t rs w1 Hv Hd).
    now rewrite Hc.
  - intros r m. apply total_failure_message_mentions.
  - rewrite (submit_valid apis options request w t rs w1 Hv Hd).
    cbn [trace_of fst]. unfold settle.
    rewrite (try_catch_throw _ _ _ _ _ _ Hc). cbn [trace_of fst].
    rewrite recover_spec.
    apply in_or_app. right. right. apply in_or_app. right.
    apply in_or_app. left. apply in_or_app. right.
    destruct (invoke_if_given _ _ _ w1) as [[t' [u|e']] w']; cbn;
      right; left; reflexivity.
  - intros Hret.
    rewrite (submit_valid apis options request w t rs w1 Hv Hd).
    unfold settle. rewrite (try_catch_throw _ _ _ _ _ _ Hc).
    destruct (recover_returns options request
                (ErrorObj (total_failure_message rs)) w1 Hret) as [w2 ->].
    eexists _, _, _. split; [reflexivity|].
    cbn. repeat split. apply length_map.
  - intros e. apply run_rejects.
Qed.

Lemma total_failure_is_fatal_witness :
  let rs := [ {| platform := "x"; success := false;
                 data := Some (Sample.refused "x is down");
                 error := Some "x is down" |};
              {| platform := "linkedin"; success := false;
                 data := Some (Sample.refused "rate limited");
                 error := Some "rate limited" |} ] in
  map platform rs = ["x"; "linkedin"]
  /\ completion_of (attempt_all Scenario.both_refuse Scenario2.all_callbacks
                      Scenario.x_then_linkedin tt)
     = Throw (ErrorObj
                "Failed to post to all platforms: x is down, rate limited")
  /\ (forall r m, In r rs -> error r = Some m ->
        occurs_in m
          "Failed to post to all platforms: x is down, rate limited")
  /\ In (SetPostError
           (Some "Failed to post to all platforms: x is down, rate limited"))
        (trace_of (submitMultiPlatformPost Scenario.both_refuse
                     Scenario2.all_callbacks Scenario.x_then_linkedin tt))
  /\ (returns (onError Scenario2.all_callbacks) ->
      exists tr response w',
        submitMultiPlatformPost Scenario.both_refuse Scenario2.all_callbacks
          Scenario.x_then_linkedin tt = (tr, Normal response, w')
        /\ resp_success response = false
        /\ resp_message response
           = "Failed to post to all platforms: x is down, rate limited"
        /\ length (resp_results response) = 2)
  /\ (forall e,
        completion_of (submitMultiPlatformPost Scenario.both_refuse
                         Scenario2.all_callbacks Scenario.x_then_linkedin tt)
          = Throw e ->
        exists f m w0 w2,
          onError Scenario2.all_callbacks = Some f
          /\ f m w0 = (Throw e, w2)).
Proof.
  apply (total_failure_is_fatal Scenario.both_refuse Scenario2.all_callbacks
           Scenario.x_then_linkedin tt
           (trace_of (dispatch Scenario.both_refuse Scenario2.all_callbacks
                        Scenario.x_then_linkedin 0 ["x"; "linkedin"] [] tt))
           [ {| platform := "x"; success := false;
                data := Some (Sample.refused "x is down");
                error := Some "x is down" |};
             {| platform := "linkedin"; success := false;
                data := Some (Sample.refused "rate limited");
                error := Some "rate limited" |} ] tt).
  - discriminate.
  - reflexivity.
  - reflexivity.
  - repeat constructor.
Defined.

(** C4.  Posting "hi" to X and then LinkedIn, with no platform-specific
    options and an [onPartialSuccess], if any, that only takes note (the
    other callbacks are whatever they are): if the X client
    reports success and the LinkedIn client reports failure with the
    message "rate limited", the response lists the X result as a success
    and the LinkedIn result as a failure with error "rate limited", its
    [success] is false (it is true exactly when no result failed), and its
    message is "Posted to 1/2 platform(s). 1 failed.". *)
Theorem partial_success_scenario {W} (apis : PlatformApis W) options w
        rx w1 rl w2 :
  observer (onPartialSuccess options) ->
  xApi_createTweet apis (tweetData (content Scenario.x_then_linkedin)) w
    = (Resolved rx, w1) ->
  api_success rx = true ->
  linkedInApi_createPost apis
      (linkedinData (content Scenario.x_then_linkedin)
         (platformSpecific Scenario.x_then_linkedin) None) w1
    = (Resolved rl, w2) ->
  api_success rl = false ->
  api_message rl = Some "rate limited" ->
  exists tr response,
    submitMultiPlatformPost apis options Scenario.x_then_linkedin w
      = (tr, Normal response, w2)
    /\ resp_results response =
         [ {| platform := "x"; success := true;
              data := Some rx; error := None |};
           {| platform := "linkedin"; success := false;
              data := Some rl; error := Some "rate limited" |} ]
    /\ resp_success response = false
    /\ (resp_success response = true
        <-> failures (resp_results response) = [])
    /\ resp_message response = "Posted to 1/2 platform(s). 1 failed.".
Proof.
  intros Hobs Hx Hxs Hl Hls Hlm.
  set (r1 := {| platform := "x"; success := true; data := Some rx;
               error := None |}).
  set (r2 := {| platform := "linkedin"; success := false; data := Some rl;
               error := Some "rate limited" |}).
  assert (Hpx : post_to apis Scenario.x_then_linkedin "x" w
                = ([CallCreateTweet
                      (tweetData (content Scenario.x_then_linkedin))],
                   Normal r1, w1)).
  { unfold post_to. cbn [String.eqb Ascii.eqb Bool.eqb].
    unfold post_to_x, bind, await, ret. cbv zeta. rewrite Hx.
    unfold result_of_response. rewrite Hxs. reflexivity. }
  assert (Hpl : post_to apis Scenario.x_then_linkedin "linkedin" w1
                = ([CallLinkedInCreatePost
                      (linkedinData (content Scenario.x_then_linkedin)
                         (platformSpecific Scenario.x_then_linkedin) None)],
                   Normal r2, w2)).
  { unfold post_to. cbn [String.eqb Ascii.eqb Bool.eqb].
    unfold post_to_linkedin.
    erewrite bind_resume by reflexivity.
    unfold bind, await, ret. cbv zeta. rewrite Hl.
    unfold result_of_response. rewrite Hls, Hlm. reflexivity. }
  assert (Hd : exists t,
             dispatch apis options Scenario.x_then_linkedin 0
               (platforms Scenario.x_then_linkedin) [] w
             = (t, Normal [r1; r2], w2)).
  { cbn [Scenario.x_then_linkedin platforms dispatch].
    unfold bind at 1. rewrite iteration_spec, Hpx.
    rewrite (notify_observer options r1 ([] ++ [r1]) w1 Hobs).
    unfold bind at 1. rewrite iteration_spec, Hpl.
    rewrite (notify_observer options r2 (([] ++ [r1]) ++ [r2]) w2 Hobs).
    unfold ret. cbn [app]. eexists. reflexivity. }
  destruct Hd as [t Hd].
  eexists _, _.
  rewrite (submit_valid apis options Scenario.x_then_linkedin
             w t _ w2 eq_refl Hd).
  rewrite (settle_partial_observer options Scenario.x_then_linkedin
             [r1; r2] w2 eq_refl eq_refl Hobs).
  split; [reflexivity|].
  unfold aftermath. cbn. repeat split; discriminate.
Qed.

Lemma partial_success_scenario_witness :
  exists tr response,
    submitMultiPlatformPost Scenario.x_ok_linkedin_limited
      Scenario2.all_callbacks Scenario.x_then_linkedin tt
      = (tr, Normal response, tt)
    /\ resp_results response =
         [ {| platform := "x"; success := true;
              data := Some Sample.ok; error := None |};
           {| platform := "linkedin"; success := false;
              data := Some (Sample.refused "rate limited");
              error := Some "rate limited" |} ]
    /\ resp_success response = false
    /\ (resp_success response = true
        <-> failures (resp_results response) = [])
    /\ resp_message response = "Posted to 1/2 platform(s). 1 failed.".
Proof.
  apply (partial_success_scenario Scenario.x_ok_linkedin_limited
           Scenario2.all_callbacks tt Sample.ok tt
           (Sample.refused "rate limited") tt);
    try reflexivity.
  intros f a w E; inversion E; reflexivity.
Defined.

(** C5.  The statement that the progress published after the k-th
    platform settles is [round(k/n * 90) + 10] fails when that platform's attempt
    throws: the [catch] of the loop records the failed result but does not
    publish any progress.  Here X is unreachable (its client rejects) and is
    followed by LinkedIn: when X has settled the published progress is still
    10, not 55, and 55 is never published. *)
Theorem progress_not_published_after_throw :
  let tr := trace_of (submitMultiPlatformPost Scenario.x_unreachable
                        Sample.no_callbacks Scenario.x_then_linkedin tt) in
  published_progress tr = [0; 10; 100; 100; 0]%Z
  /\ progress_when_settled tr 1 = Some 10%Z
  /\ progress_after 1 2 = 55%Z
  /\ progress_when_settled tr 2 = Some 100%Z.
Proof. cbv zeta. repeat split; vm_compute; reflexivity. Qed.

(** C6, as stated, fails on its condition for the generic text.  The
    [catch] tests [error instanceof Error], not whether the thrown value has
    a message.  An [Error] thrown without a message is recorded with the
    empty text, not the generic one; a client that rejects with a plain
    object carrying a [message] loses that message to the generic text. *)
Lemma recorded_text_follows_instanceof :
  Claimed.error_of_thrown "x" (ErrorObj "") = "Failed to post to x"
  /\ completion_of
       (dispatch (Scenario.x_rejects_with (ErrorObj "")) Sample.no_callbacks
          (Sample.post ["x"]) 0 ["x"] [] tt)
     = Normal [ {| platform := "x"; success := false; data := None;
                   error := Some "" |} ]
  /\ Claimed.error_of_thrown "x" (NonError (Some "Unauthorized"))
     = "Unauthorized"
  /\ completion_of
       (dispatch (Scenario.x_rejects_with (NonError (Some "Unauthorized")))
          Sample.no_callbacks (Sample.post ["x"]) 0 ["x"] [] tt)
     = Normal [ {| platform := "x"; success := false; data := None;
                   error := Some "Failed to post to x" |} ].
Proof. repeat split; vm_compute; reflexivity. Qed.

(** C6, amended.  Whatever a platform's attempt throws, the loop catches
    it on the spot: the platform gets a failed result that carries the
    message of the thrown value when that is an [Error], be the message
    empty, and "Failed to post to <platform>" when it is anything else,
    whatever it carries; and every later platform still gets its turn and
    its result.  In particular an unknown platform tag, a missing Substack
    session and a failed media upload each end the turn normally with such
    a result, the last two without the post ever being sent. *)
Theorem thrown_attempt_is_recorded {W} (apis : PlatformApis W) options
        request :
  (forall before p after i results w t1 rs1 w1 e,
     dispatch apis options request i before results w
       = (t1, Normal rs1, w1) ->
     completion_of (post_to apis request p w1) = Throw e ->
     exists t rs2 w2,
       dispatch apis options request i (before ++ p :: after) results w
         = (t, Normal (rs1 ++ errorResult p e :: rs2), w2)
       /\ Entries after rs2
       /\ (returns (onPartialSuccess options) -> map platform rs2 = after)
       /\ platform (errorResult p e) = p
       /\ success (errorResult p e) = false
       /\ data (errorResult p e) = None
       /\ error (errorResult p e) =
            Some match e with
                 | ErrorObj message => message
                 | NonError _ => ("Failed to post to " ++ p)%string
                 end)
  /\ (forall i p results w,
        p <> "linkedin" -> p <> "x" -> p <> "substack" ->
        let failed :=
          {| platform := p; success := false; data := None;
             error := Some ("Unsupported platform: " ++ p)%string |} in
        iteration apis options request i p results w =
          ((if (0 <? i)%nat then [Sleep (delay options)] else [])
             ++ [ConsoleError ("Error posting to " ++ p ++ ":")%string
                   (ErrorObj ("Unsupported platform: " ++ p)%string);
                 SetResults (results ++ [failed])],
           Normal (results ++ [failed]), w))
  /\ (forall i results w s,
        substack (platformSpecific request) = Some s ->
        truthy (title s) = true ->
        truthy (localStorage_getItem apis "substackSessionId" w) = false ->
        let failed :=
          {| platform := "substack"; success := false; data := None;
             error := Some "Substack session not found" |} in
        iteration apis options request i "substack" results w =
          ((if (0 <? i)%nat then [Sleep (delay options)] else [])
             ++ [ConsoleError "Error posting to substack:"
                   (ErrorObj "Substack session not found");
                 SetResults (results ++ [failed])],
           Normal (results ++ [failed]), w))
  /\ (forall i results w file up w1,
        media (content request) = Some file ->
        mediaType (content request) = Some IMAGE
        \/ mediaType (content request) = Some VIDEO ->
        linkedInApi_uploadMedia apis file (media_title (content request))
          (media_description (content request)) w = (Resolved up, w1) ->
        upload_success up && truthy (upload_assetUrn up) = false ->
        let failed :=
          {| platform := "linkedin"; success := false; data := None;
             error := Some (or_else (upload_message up)
                              "Failed to upload media") |} in
        iteration apis options request i "linkedin" results w =
          ((if (0 <? i)%nat then [Sleep (delay options)] else [])
             ++ [CallUploadMedia file (media_title (content request))
                   (media_description (content request));
                 ConsoleError "Error posting to linkedin:"
                   (ErrorObj (or_else (upload_message up)
                                "Failed to upload media"));
                 SetResults (results ++ [failed])],
           Normal (results ++ [failed]), w1)).
Proof.
  split; [|split; [|split]].
  - intros before p after i results w t1 rs1 w1 e Hb He.
    rewrite (dispatch_app apis options request before (p :: after)
               i results w t1 rs1 w1 Hb).
    cbn [dispatch].
    destruct (post_to apis request p w1) as [[tp c] wp] eqn:Ep.
    cbn in He. subst c.
    erewrite bind_resume
      by (apply (iteration_throws_at_once apis options request _ p rs1 w1
                   tp e wp Ep)).
    destruct (dispatch_looped apis options request after
                (S (i + length before)) (rs1 ++ [errorResult p e]) wp)
      as (t & rs2 & w2 & Hd & L).
    rewrite Hd. cbn [trace_of completion_of world_of fst snd].
    eexists _, rs2, w2. split.
    + rewrite <- (app_assoc rs1). reflexivity.
    + split; [eapply looped_entries; eassumption|].
      split; [intros Hret; eapply looped_returns_platforms; eassumption|].
      repeat split.
  - intros i p results w H1 H2 H3. cbv zeta.
    apply (iteration_throws_at_once apis options request i p results w []).
    now apply unsupported_platform_throws.
  - intros i results w s Hs Ht Hn. cbv zeta.
    apply (iteration_throws_at_once apis options request i "substack"
             results w []).
    eapply missing_session_throws; eassumption.
  - intros i results w file up w1 Hm Hk Hup Hbad. cbv zeta.
    apply (iteration_throws_at_once apis options request i "linkedin"
             results w [_]).
    apply (failed_upload_throws apis request w file up w1 Hm); try assumption.
    unfold is_image_or_video. now destruct Hk as [-> | ->].
Qed.

Lemma thrown_attempt_is_recorded_witness :
  exists t rs2 w2,
    dispatch Scenario.x_unreachable Scenario2.all_callbacks
      Scenario.x_then_linkedin 0 ([] ++ "x" :: ["linkedin"]) [] tt
      = (t, Normal ([] ++ errorResult "x" (ErrorObj "Network Error") :: rs2),
         w2)
    /\ Entries ["linkedin"] rs2
    /\ (returns (onPartialSuccess Scenario2.all_callbacks) ->
        map platform rs2 = ["linkedin"])
    /\ platform (errorResult "x" (ErrorObj "Network Error")) = "x"
    /\ success (errorResult "x" (ErrorObj "Network Error")) = false
    /\ data (errorResult "x" (ErrorObj "Network Error")) = None
    /\ error (errorResult "x" (ErrorObj "Network Error"))
       = Some "Network Error".
Proof.
  apply (proj1 (thrown_attempt_is_recorded Scenario.x_unreachable
                  Scenario2.all_callbacks Scenario.x_then_linkedin)
           [] "x" ["linkedin"] 0 [] tt [] [] tt (ErrorObj "Network Error"));
    reflexivity.
Defined.

(** C7.  The progress is meant to rise from 10 to 100 as results come in.
    The caller's [onPartialSuccess] is called inside the [try] of the turn:
    when it throws, the [catch] of the turn pushes a second result for the
    same platform, the array outgrows the platform list, and the next turn
    publishes a progress above 100.  Posting to X and LinkedIn with a
    callback that throws at its first call, the run publishes
    0, 10, 55, 145 and then 100, while [isPosting] is still true. *)
Theorem progress_overshoots_then_drops :
  let tr := trace_of (submitMultiPlatformPost Sample.all_ok
                        Scenario.listener_throws_once
                        Scenario.x_then_linkedin false) in
  let h := useMultiPlatformPost mount in
  published_progress tr = [0; 10; 55; 145; 100; 0]%Z
  /\ nth_error tr 19 = Some (SetUploadProgress 100)
  /\ uploadProgress (cells (replay h (firstn 19 tr))) = 145%Z
  /\ length (results (cells (replay h (firstn 19 tr)))) = 3
  /\ length (currentPlatforms (cells (replay h (firstn 19 tr)))) = 2
  /\ isPosting (cells (replay h (firstn 19 tr))) = true
  /\ uploadProgress (cells (replay h (firstn 20 tr))) = 100%Z
  /\ isPosting (cells (replay h (firstn 20 tr))) = true.
Proof. cbv zeta. repeat split; vm_compute; reflexivity. Qed.

(** C8.  [cancelPosting] tests its own [abortController], not [isPosting],
    and that variable is a plain local of the hook function: the invocation
    that started the run has it set, every later invocation has its own,
    still [null].  So once the component has rendered again (which
    [setIsPosting(true)] makes it do), the [cancelPosting] it holds finds
    [isPosting] true and changes nothing. *)
Theorem cancel_after_rerender_does_nothing :
  let running := replay (useMultiPlatformPost mount) started in
  let shown := rerender running in
  abortController running = Some {| aborted := false |}
  /\ isPosting (cells shown) = true
  /\ abortController shown = None
  /\ cancelPosting shown = shown
  /\ isPosting (cells (cancelPosting shown)) = true
  /\ uploadProgress (cells (cancelPosting shown)) = 10%Z
  /\ postError (cells (cancelPosting shown)) = None.
Proof. cbv zeta. repeat split; vm_compute; reflexivity. Qed.

(** C9.  [cancelPosting] aborts a controller whose signal nothing reads:
    the body of [submitMultiPlatformPost] hands it to no client and its
    loop never looks at it.  A run posts to X and then LinkedIn and is
    cancelled, through the invocation that started it, while the call to X
    is in flight.  The controller is aborted and the cancellation message
    shown; when the call to X resolves, the loop publishes the progress 55
    and the X result all the same, then posts to LinkedIn, and the run ends
    with both results and [postSuccess] set under the message
    "Posting cancelled by user". *)
Theorem late_result_is_published :
  let tr := trace_of (submitMultiPlatformPost Sample.all_ok
                        Sample.no_callbacks Scenario.x_then_linkedin tt) in
  let h := useMultiPlatformPost mount in
  let cancelled := cancelPosting (replay h (firstn 9 tr)) in
  option_map is_await (nth_error tr 8) = Some true
  /\ abortController (replay h (firstn 9 tr)) = Some {| aborted := false |}
  /\ abortController cancelled = Some {| aborted := true |}
  /\ isPosting (cells cancelled) = false
  /\ uploadProgress (cells cancelled) = 0%Z
  /\ postError (cells cancelled) = Some "Posting cancelled by user"
  /\ results (cells cancelled) = []
  /\ results (cells (replay cancelled (firstn 2 (skipn 9 tr))))
     = [ {| platform := "x"; success := true; data := Some Sample.ok;
            error := None |} ]
  /\ uploadProgress (cells (replay cancelled (firstn 2 (skipn 9 tr))))
     = 55%Z
  /\ ~ ignored_after_cancel h tr 9
  /\ option_map is_network_call (nth_error (skipn 9 tr) 3) = Some true
  /\ map platform (results (cells (replay_cancelled h tr 9)))
     = ["x"; "linkedin"]
  /\ postSuccess (cells (replay_cancelled h tr 9)) = true
  /\ postError (cells (replay_cancelled h tr 9))
     = Some "Posting cancelled by user".
Proof.
  cbv zeta. repeat split; try (vm_compute; reflexivity).
  intros H. specialize (H 2%nat).
  apply (f_equal uploadProgress) in H. vm_compute in H. discriminate.
Qed.

(** C10.  With [requestDelay: 0] the delay in force is the default 2000:
    every turn of the loop but the first starts by waiting 2000, the first
    turn does not wait, and a validated run of n >= 2 platforms waits 2000
    exactly n - 1 times. *)
Theorem zero_delay_falls_back_to_default {W} (apis : PlatformApis W) options
        request w :
  requestDelay options = Some 0%Z ->
  platforms request <> [] ->
  substack_untitled request = false ->
  2 <= length (platforms request) ->
  delay options = 2000%Z
  /\ (forall i p results w',
        0 < i ->
        exists rest,
          trace_of (iteration apis options request i p results w')
            = Sleep 2000 :: rest)
  /\ (forall p results w',
        sleeps (trace_of (iteration apis options request 0 p results w'))
          = [])
  /\ sleeps (trace_of (submitMultiPlatformPost apis options request w))
     = repeat 2000%Z (length (platforms request) - 1).
Proof.
  intros Hzero Hne Hok Hn.
  assert (Hdelay : delay options = 2000%Z).
  { unfold delay. now rewrite Hzero. }
  split; [exact Hdelay|]. split; [|split].
  - intros i p results w' Hi.
    destruct (iteration_pause apis options request i p results w')
      as (rest & -> & _).
    unfold pause. destruct i as [|i]; [lia|]. cbn [Nat.ltb Nat.leb app].
    rewrite Hdelay. eexists. reflexivity.
  - intros p results w'.
    destruct (iteration_pause apis options request 0 p results w')
      as (rest & -> & Hrest).
    exact Hrest.
  - rewrite run_sleeps. rewrite (validated request w Hne Hok).
    cbn [completion_of fst snd]. now rewrite Hdelay.
Qed.

Lemma zero_delay_falls_back_to_default_witness :
  delay Scenario.zero_delay = 2000%Z
  /\ (forall i p results w',
        0 < i ->
        exists rest,
          trace_of (iteration Sample.all_ok Scenario.zero_delay
                      Scenario.three_platforms i p results w')
            = Sleep 2000 :: rest)
  /\ (forall p results w',
        sleeps (trace_of (iteration Sample.all_ok Scenario.zero_delay
                            Scenario.three_platforms 0 p results w'))
          = [])
  /\ sleeps (trace_of (submitMultiPlatformPost Sample.all_ok
                         Scenario.zero_delay Scenario.three_platforms tt))
     = repeat 2000%Z (3 - 1).
Proof.
  apply (zero_delay_falls_back_to_default Sample.all_ok Scenario.zero_delay
           Scenario.three_platforms tt).
  - reflexivity.
  - discriminate.
  - reflexivity.
  - cbn. lia.
Defined.

(** * Further properties *)

(** X1.  Each time a run is suspended (awaiting a client or the delay),
    [isPosting] is true and [cancelPosting], called through the invocation
    of the hook that started the run, takes effect at once: it leaves
    [isPosting] false, [uploadProgress] 0 and the message
    "Posting cancelled by user" in [postError], and marks the controller
    aborted. *)
Theorem cancel_through_starting_invocation {W} (apis : PlatformApis W)
        options request w st :
  at_every_suspension
    (fun h =>
       isPosting (cells h) = true
       /\ isPosting (cells (cancelPosting h)) = false
       /\ uploadProgress (cells (cancelPosting h)) = 0%Z
       /\ postError (cells (cancelPosting h))
          = Some "Posting cancelled by user"
       /\ abortController (cancelPosting h) = Some {| aborted := true |})
    (useMultiPlatformPost st)
    (trace_of (submitMultiPlatformPost apis options request w)).
Proof.
  eapply suspension_impl; [|apply in_flight_when_suspended].
  intros h [Hp Ha].
  destruct (cancel_in_flight h _ Ha) as (C1 & C2 & C3 & C4 & _).
  auto.
Qed.



(** X3.  The promise returned by [submitMultiPlatformPost] rejects only
    with what the caller's [onError] threw: whatever the clients and the
    other callbacks do, it resolves with a response when [onError] is not
    supplied or returns normally.  Either way the [finally] block has run:
    the last actions of the run are [setIsPosting(false)],
    [setUploadProgress(0)] and [abortController = null]. *)
Theorem promise_rejects_only_through_onError {W} (apis : PlatformApis W)
        options request w :
  (returns (onError options) ->
   exists tr response w',
     submitMultiPlatformPost apis options request w
       = (tr, Normal response, w'))
  /\ (forall e,
        completion_of (submitMultiPlatformPost apis options request w)
          = Throw e ->
        exists f msg w0 w1,
          onError options = Some f /\ f msg w0 = (Throw e, w1))
  /\ exists body,
       trace_of (submitMultiPlatformPost apis options request w)
         = body ++ [SetIsPosting false; SetUploadProgress 0;
                    AssignAbortController None].
Proof.
  split; [apply run_resolves|]. split; [intros e; apply run_rejects|].
  apply run_ends_with_cleanup.
Qed.










(** X9.  When the callbacks return normally, every run leaves exactly one
    flag-clearing timer behind (the awaited delays of the loop apart): the
    one that clears [postError] after 10000 when the run left a message
    there (failed validation, or no platform succeeded), and otherwise the
    one that clears [postSuccess] after 5000, also when [postSuccess] was
    never set.  Once the timer has fired, both flags are clear and the
    other cells are as the run left them. *)
Theorem flags_clear_when_timer_fires {W} (apis : PlatformApis W) options
        request w (h : Instance) :
  callbacks_return options ->
  exists tr response w',
    submitMultiPlatformPost apis options request w
      = (tr, Normal response, w')
    /\ (timers tr = [(ClearPostError, 10000%Z)]
        /\ postError (cells (replay h tr)) = Some (resp_message response)
        \/ timers tr = [(ClearPostSuccess, 5000%Z)]
           /\ postError (cells (replay h tr)) = None)
    /\ postSuccess (fire_all (timers tr) (cells (replay h tr))) = false
    /\ postError (fire_all (timers tr) (cells (replay h tr))) = None
    /\ isPosting (fire_all (timers tr) (cells (replay h tr)))
       = isPosting (cells (replay h tr))
    /\ uploadProgress (fire_all (timers tr) (cells (replay h tr)))
       = uploadProgress (cells (replay h tr))
    /\ results (fire_all (timers tr) (cells (replay h tr)))
       = results (cells (replay h tr))
    /\ currentPlatforms (fire_all (timers tr) (cells (replay h tr)))
       = currentPlatforms (cells (replay h tr)).
Proof.
  intros Hret.
  destruct (run_ending apis options request w Hret)
    as (tr & response & w' & around & Hs & Hend & Hblind).
  exists tr, response, w'. split; [exact Hs|].
  assert (Ht : timers tr = timers around)
    by (unfold timers; apply Hblind; blind_to_loop).
  assert (He : postError (cells (replay h tr))
               = last (filter_map post_error_of around) (postError (cells h))).
  { rewrite (replay_last postError post_error_of perform_post_error).
    rewrite Hblind by blind_to_loop. reflexivity. }
  assert (Hp : postSuccess (cells (replay h tr))
               = last (filter_map post_success_of around)
                      (postSuccess (cells h))).
  { rewrite (replay_last postSuccess post_success_of perform_post_success).
    rewrite Hblind by blind_to_loop. reflexivity. }
  rewrite Ht.
  destruct Hend as [msg Hv|rs Hv Hd Hne Hall|rs Hv Hd Hsome Hfail
                   |rs Hv Hd Hne Hnone];
    unfold around_failure, around_success, around_partial, alarm in *;
    [destruct (given (onError options))|destruct (given (onSuccess options))
    |destruct (given (onPartialSuccess options))
    |destruct (given (onError options))];
    cbn in He, Hp; cbn; rewrite ?He, ?Hp;
    (split; [first [left; split; reflexivity
                   |right; split; reflexivity]|]);
    repeat split.
Qed.

Lemma flags_clear_when_timer_fires_witness :
  exists tr response w',
    submitMultiPlatformPost Scenario.both_refuse Scenario2.all_callbacks
      Scenario.x_then_linkedin tt = (tr, Normal response, w')
    /\ (timers tr = [(ClearPostError, 10000%Z)]
        /\ postError (cells (replay (useMultiPlatformPost mount) tr))
           = Some (resp_message response)
        \/ timers tr = [(ClearPostSuccess, 5000%Z)]
           /\ postError (cells (replay (useMultiPlatformPost mount) tr))
              = None)
    /\ postSuccess (fire_all (timers tr)
                      (cells (replay (useMultiPlatformPost mount) tr)))
       = false
    /\ postError (fire_all (timers tr)
                    (cells (replay (useMultiPlatformPost mount) tr))) = None
    /\ isPosting (fire_all (timers tr)
                    (cells (replay (useMultiPlatformPost mount) tr)))
       = isPosting (cells (replay (useMultiPlatformPost mount) tr))
    /\ uploadProgress (fire_all (timers tr)
                         (cells (replay (useMultiPlatformPost mount) tr)))
       = uploadProgress (cells (replay (useMultiPlatformPost mount) tr))
    /\ results (fire_all (timers tr)
                  (cells (replay (useMultiPlatformPost mount) tr)))
       = results (cells (replay (useMultiPlatformPost mount) tr))
    /\ currentPlatforms (fire_all (timers tr)
                           (cells (replay (useMultiPlatformPost mount) tr)))
       = currentPlatforms (cells (replay (useMultiPlatformPost mount) tr)).
Proof.
  apply (flags_clear_when_timer_fires Scenario.both_refuse
           Scenario2.all_callbacks Scenario.x_then_linkedin tt
           (useMultiPlatformPost mount)).
  repeat split; intros f a w E; inversion E; reflexivity.
Defined.

(** X10.  [resetState] after a run, whatever the run did and whatever the
    hook held before it, brings every cell back to its value at mount.
    On its own [resetState] leaves [isPosting] and the [abortController]
    alone: called in mid-run it neither stops the run nor marks it as
    over. *)
Theorem reset_after_run_restores_mount {W} (apis : PlatformApis W) options
        request w (h : Instance) :
  cells (resetState
           (replay h (trace_of (submitMultiPlatformPost apis options
                                  request w)))) = mount
  /\ (forall h',
        isPosting (cells (resetState h')) = isPosting (cells h')
        /\ abortController (resetState h') = abortController h'
        /\ postSuccess (cells (resetState h')) = false
        /\ postError (cells (resetState h')) = None
        /\ uploadProgress (cells (resetState h')) = 0%Z
        /\ results (cells (resetState h')) = []
        /\ currentPlatforms (cells (resetState h')) = []).
Proof.
  split.
  - destruct (idle_after_run apis options request w h) as [Hp _].
    set (x := replay h (trace_of (submitMultiPlatformPost apis options
                                    request w))) in *.
    destruct x as [[p s e u c r] ac]. cbn in Hp |- *. now subst p.
  - intros h'. repeat split.
Qed.

(** X11.  A run calls [xApi.createTweet] once for every entry "x" of the
    platform list, a repeated entry included, whatever the callbacks do,
    and never again for an entry that failed; each call carries the media
    as it is, whatever the media type, and the text trimmed: the text
    without the white space at its two ends, white space being the code
    units U+0009 to U+000D, U+0020, U+00A0, U+1680, U+2000 to U+200A,
    U+2028, U+2029, U+202F, U+205F, U+3000 and U+FEFF.  A request that
    fails validation sends no tweet. *)
Theorem one_tweet_per_x_entry {W} (apis : PlatformApis W) options request w :
  (exists sent,
     tweets (trace_of (submitMultiPlatformPost apis options request w)) =
       match completion_of (validate request w) with
       | Normal _ =>
           repeat {| tw_text := sent; tw_media := media (content request) |}
                  (count_occ string_dec (platforms request) "x")
       | Throw _ => []
       end
     /\ trimmed_of (text (content request)) sent)
  /\ (forall c,
        is_white_space c = true <->
        In c [9; 10; 11; 12; 13; 32; 160; 5760;
              8192; 8193; 8194; 8195; 8196; 8197; 8198; 8199; 8200; 8201;
              8202; 8232; 8233; 8239; 8287; 12288; 65279]%N)
  /\ trim Scenario2.padded = code_units "hi".
Proof.
  split; [|split; [apply is_white_space_iff|reflexivity]].
  exists (trim (text (content request))). split; [|apply trim_spec].
  unfold tweets. rewrite run_sent by only_calls.
  destruct (completion_of (validate request w)); [|reflexivity].
  destruct (dispatch_looped apis options request (platforms request) 0 [] w)
    as (t & rs & w1 & E & L).
  rewrite E. cbn [trace_of fst].
  apply (looped_tweets _ _ _ _ _ _ _ _ _ _ L).
Qed.

(** X12.  Whatever is handed to [substackApi.createPost] comes with a
    non-empty session id and a non-empty title, the title of the request's
    Substack options, with their subtitle and draft flag ([false] when not
    given) and with the trimmed text as content: the text without the
    white space (as ECMAScript counts it) at its two ends.  At most one
    post is sent per entry "substack" of the list, and none by an attempt
    that finds no stored session. *)
Theorem substack_posts_are_guarded {W} (apis : PlatformApis W) options
        request w :
  Forall
    (fun sent : string * CreateSubstackPostRequest =>
       fst sent <> ""
       /\ ss_title (snd sent) <> ""
       /\ trimmed_of (text (content request)) (ss_content (snd sent))
       /\ exists s,
            substack (platformSpecific request) = Some s
            /\ title s = Some (ss_title (snd sent))
            /\ ss_subtitle (snd sent) = subtitle s
            /\ ss_isDraft (snd sent) = bool_or_false (isDraft s))
    (substack_posts
       (trace_of (submitMultiPlatformPost apis options request w)))
  /\ length (substack_posts
               (trace_of (submitMultiPlatformPost apis options request w)))
     <= count_occ string_dec (platforms request) "substack"
  /\ (forall w',
        truthy (localStorage_getItem apis "substackSessionId" w') = false ->
        trace_of (post_to apis request "substack" w') = [])
  /\ (forall c,
        is_white_space c = true <->
        In c [9; 10; 11; 12; 13; 32; 160; 5760;
              8192; 8193; 8194; 8195; 8196; 8197; 8198; 8199; 8200; 8201;
              8202; 8232; 8233; 8239; 8287; 12288; 65279]%N).
Proof.
  unfold substack_posts. rewrite run_sent by only_calls.
  destruct (dispatch_looped apis options request (platforms request) 0 [] w)
    as (t & rs & w1 & E & L).
  destruct (looped_substack_posts _ _ _ _ _ _ _ _ _ _ L) as [H1 H2].
  rewrite E. cbn [trace_of fst].
  split; [|split; [|split]].
  - destruct (completion_of (validate request w)); [exact H1|constructor].
  - destruct (completion_of (validate request w)); [exact H2|cbn; lia].
  - intros w'. apply post_to_substack_sent.
  - apply is_white_space_iff.
Qed.

(** X13.  The LinkedIn attempt uploads the media first exactly when there
    is media and the media type is IMAGE or VIDEO, under the title
    "Image from Auto-Post App" or "Video from Auto-Post App" and the
    matching description.  When the upload reports success and an asset
    urn, the post is then created with the trimmed text, the media type and
    one media item carrying that urn and the title and description given
    to the upload; when the upload fails or rejects, [createPost] is never
    called.  With no media, or media of type TEXT or of no type, nothing
    is uploaded and the post is created without a media item. *)
Theorem linkedin_post_follows_upload {W} (apis : PlatformApis W) request w :
  let c := content request in
  (media c = None \/ mediaType c = Some TEXT \/ mediaType c = None ->
   exists d,
     trace_of (post_to apis request "linkedin" w)
       = [CallLinkedInCreatePost d]
     /\ cp_media d = None
     /\ trimmed_of (text c) (cp_text d))
  /\ (forall file kind word,
        media c = Some file ->
        mediaType c = Some kind ->
        kind = IMAGE /\ word = "Image" \/ kind = VIDEO /\ word = "Video" ->
        let ttl := (word ++ " from Auto-Post App")%string in
        let dsc := (word ++ " uploaded via Auto-Post application")%string in
        match linkedInApi_uploadMedia apis file ttl dsc w with
        | (Resolved up, w1) =>
            if upload_success up && truthy (upload_assetUrn up) then
              exists urn d,
                upload_assetUrn up = Some urn /\ urn <> ""
                /\ trace_of (post_to apis request "linkedin" w)
                   = [CallUploadMedia file ttl dsc; CallLinkedInCreatePost d]
                /\ cp_media d
                   = Some [ {| item_assetUrn := urn; item_title := ttl;
                               item_description := dsc |} ]
                /\ cp_mediaType d = Some kind
                /\ trimmed_of (text c) (cp_text d)
            else
              post_to apis request "linkedin" w
              = ([CallUploadMedia file ttl dsc],
                 Throw (ErrorObj (or_else (upload_message up)
                                    "Failed to upload media")),
                 w1)
        | (Rejected e, w1) =>
            post_to apis request "linkedin" w
            = ([CallUploadMedia file ttl dsc], Throw e, w1)
        end).
Proof.
  cbv zeta. split.
  - intros Hn.
    exists (linkedinData (content request) (platformSpecific request) None).
    split; [|split; [reflexivity|apply trim_spec]].
    unfold post_to. cbn [String.eqb Ascii.eqb Bool.eqb].
    unfold post_to_linkedin.
    assert (Hu : upload_linkedin_media apis (content request) w
                 = ([], Normal None, w)).
    { unfold upload_linkedin_media, is_image_or_video.
      destruct (media (content request)); [|reflexivity].
      destruct Hn as [Hn|[-> | ->]]; [discriminate|reflexivity|reflexivity]. }
    erewrite bind_resume by exact Hu.
    unfold bind, await, ret, trace_of. cbv zeta.
    destruct (linkedInApi_createPost apis _ w) as [[r|e] w1]; reflexivity.
  - intros file kind word Em Ek Hkind.
    assert (Hn : is_image_or_video (content request) = true).
    { unfold is_image_or_video. rewrite Ek.
      now destruct Hkind as [[-> _]|[-> _]]. }
    assert (Et : media_title (content request)
                 = (word ++ " from Auto-Post App")%string).
    { unfold media_title, media_word. rewrite Ek.
      now destruct Hkind as [[-> ->]|[-> ->]]. }
    assert (Ed : media_description (content request)
                 = (word ++ " uploaded via Auto-Post application")%string).
    { unfold media_description, media_word. rewrite Ek.
      now destruct Hkind as [[-> ->]|[-> ->]]. }
    rewrite <- Et, <- Ed.
    destruct (linkedInApi_uploadMedia apis file
                (media_title (content request))
                (media_description (content request)) w)
      as [[up|e] w1] eqn:Eu.
    + destruct (upload_success up && truthy (upload_assetUrn up)) eqn:Eok.
      * apply andb_prop in Eok. destruct Eok as [Hsucc Hurn].
        destruct (truthy_value _ Hurn) as [Hne Hsome].
        exists (or_else (upload_assetUrn up) ""),
               (linkedinData (content request) (platformSpecific request)
                  (Some (or_else (upload_assetUrn up) ""))).
        split; [exact Hsome|]. split; [exact Hne|].
        split; [|split; [reflexivity|split; [|apply trim_spec]]].
        -- unfold post_to. cbn [String.eqb Ascii.eqb Bool.eqb].
           unfold post_to_linkedin.
           assert (Hu : upload_linkedin_media apis (content request) w
                        = ([CallUploadMedia file
                              (media_title (content request))
                              (media_description (content request))],
                           Normal (upload_assetUrn up), w1)).
           { unfold upload_linkedin_media. rewrite Em, Hn.
             unfold bind, await, ret. rewrite Eu.
             rewrite Hsucc, Hurn. reflexivity. }
           erewrite bind_resume by exact Hu. rewrite Hsome at 1.
           unfold bind, await, ret, trace_of. cbv zeta.
           destruct (linkedInApi_createPost apis _ w1) as [[r|e] w2];
             reflexivity.
        -- cbn [linkedinData cp_mediaType]. rewrite Ek.
           now destruct Hkind as [[-> _]|[-> _]].
      * apply (failed_upload_throws apis request w file up w1 Em Hn Eu Eok).
    + unfold post_to. cbn [String.eqb Ascii.eqb Bool.eqb].
      unfold post_to_linkedin, upload_linkedin_media.
      rewrite Em, Hn. unfold bind at 1. unfold bind at 1. unfold await.
      rewrite Eu. reflexivity.
Qed.

Lemma linkedin_post_follows_upload_witness :
  exists urn d,
    Some "urn:li:asset:1" = Some urn /\ urn <> ""
    /\ trace_of (post_to Sample.all_ok Scenario2.picture_to_linkedin
                   "linkedin" tt)
       = [CallUploadMedia "cat.png" "Image from Auto-Post App"
            "Image uploaded via Auto-Post application";
          CallLinkedInCreatePost d]
    /\ cp_media d
       = Some [ {| item_assetUrn := urn;
                   item_title := "Image from Auto-Post App";
                   item_description :=
                     "Image uploaded via Auto-Post application" |} ]
    /\ cp_mediaType d = Some IMAGE
    /\ trimmed_of (code_units "  look  ") (cp_text d).
Proof.
  exact (proj2 (linkedin_post_follows_upload Sample.all_ok
                  Scenario2.picture_to_linkedin tt)
           "cat.png" IMAGE "Image" eq_refl eq_refl
           (or_introl (conj eq_refl eq_refl))).
Defined.

(** X14.  In every response returned, and in what the loop leaves in
    [results], a successful entry carries the client's response and no
    error, and an entry without a client's response is a failure that
    carries an error message.  A response is returned whenever [onError]
    returns normally. *)
Theorem results_are_well_formed {W} (apis : PlatformApis W) options
        request w :
  (forall tr response w',
     submitMultiPlatformPost apis options request w
       = (tr, Normal response, w') ->
     Forall well_formed_result (resp_results response))
  /\ (forall i todo acc w0 rs,
        completion_of (dispatch apis options request i todo acc w0)
          = Normal (acc ++ rs) ->
        Forall well_formed_result rs)
  /\ (returns (onError options) ->
      exists tr response w',
        submitMultiPlatformPost apis options request w
          = (tr, Normal response, w')).
Proof.
  split; [|split; [|apply run_resolves]].
  - intros tr response w' Hs.
    destruct (run_response apis options request w response)
      as [[msg ->]|(t & rs & w1 & Hv & Hd & ->)].
    + now rewrite Hs.
    + apply failedResponse_well_formed.
    + unfold build_response. cbn [resp_results]. rewrite rebuilt_results.
      destruct (dispatch_inv _ _ _ _ _ _ _ _ _ _ Hd) as (rs' & -> & L).
      cbn [app]. eapply looped_well_formed; eassumption.
  - intros i todo acc w0 rs H.
    destruct (dispatch_completion_inv _ _ _ _ _ _ _ _ H) as (t & w1 & L).
    eapply looped_well_formed; eassumption.
Qed.


(** X16.  Validation passes exactly when the platform list is not empty
    and, if it holds "substack", the Substack options give a non-empty
    title.  It looks at nothing else: an unknown tag, or a tag in another
    letter case, passes validation (and fails later, in its own turn).  An
    empty list is reported as such; an untitled Substack entry is reported
    wherever it stands in the list.  Validation sends nothing and leaves
    the world as it is. *)
Theorem validation_rejects_exactly {W} request (w : W) :
  (completion_of (validate request w) = Normal tt
   <-> platforms request <> []
       /\ (In "substack" (platforms request) ->
           truthy (substack_title (platformSpecific request)) = true))
  /\ (platforms request = [] ->
      completion_of (validate request w)
        = Throw (ErrorObj "At least one platform must be selected"))
  /\ (In "substack" (platforms request) ->
      truthy (substack_title (platformSpecific request)) = false ->
      completion_of (validate request w)
        = Throw (ErrorObj "Substack posts require a title"))
  /\ trace_of (validate request w) = []
  /\ world_of (validate request w) = w.
Proof.
  assert (Hsel : existsb (fun p => (p =? "substack")%string)
                   (platforms request) = true
                 <-> In "substack" (platforms request)).
  { rewrite existsb_exists. split.
    - intros (p & Hin & Hp). apply String.eqb_eq in Hp. now subst p.
    - intros Hin. exists "substack". now split. }
  destruct (platforms request) as [|p rest] eqn:E.
  - rewrite (validate_empty request w E). cbn.
    repeat split; try discriminate; try tauto.
  - assert (Hne : platforms request <> []) by congruence.
    rewrite <- E in Hsel |- *. clear E p rest.
    rewrite (validate_nonempty request w Hne).
    cbn [completion_of trace_of world_of fst snd].
    unfold substack_untitled.
    destruct (existsb (fun q => (q =? "substack")%string)
                (platforms request)) eqn:Ex;
      destruct (truthy (substack_title (platformSpecific request))) eqn:Et;
      cbn [andb negb].
    + repeat split; try discriminate; try tauto.
    + repeat split; try discriminate; try tauto.
      intros [_ H]. specialize (H (proj1 Hsel eq_refl)). discriminate.
    + repeat split; try discriminate; try tauto;
        intros Hin; apply Hsel in Hin; discriminate.
    + repeat split; try discriminate; try tauto;
        intros Hin; apply Hsel in Hin; discriminate.
Qed.

(** X17.  [cancelPosting] called once the run has settled changes nothing:
    the cleanup has set the [abortController] back to [null], so the
    outcome shown is not replaced by a cancellation message.  And calling
    it twice is the same as calling it once. *)
Theorem cancel_after_settle_does_nothing {W} (apis : PlatformApis W) options
        request w (h : Instance) :
  cancelPosting
    (replay h (trace_of (submitMultiPlatformPost apis options request w)))
  = replay h (trace_of (submitMultiPlatformPost apis options request w))
  /\ forall h', cancelPosting (cancelPosting h') = cancelPosting h'.
Proof.
  split.
  - destruct (run_ends_with_cleanup apis options request w) as [body E].
    rewrite E, replay_app. reflexivity.
  - intros h'. unfold cancelPosting.
    destruct (abortController h') eqn:Ea; cbn; [reflexivity|].
    now rewrite Ea.
Qed.

(** X18.  [onSuccess] is called inside the outer [try], after
    [setPostSuccess(true)].  When every platform of a validated run has
    succeeded and [onSuccess] throws, the outer [catch] takes over: with an
    [onError] that returns normally, the promise resolves with the failed
    response made of the thrown value's message, one failed entry per
    requested platform, [postError] is given that message and [onError] is
    called with it; the one flag-clearing timer set is the one that clears
    [postError], so that [postSuccess] stays true when it has fired. *)
Theorem throwing_onSuccess_reports_failure {W} (apis : PlatformApis W)
        options request w t rs w1 f e w2 :
  platforms request <> [] ->
  substack_untitled request = false ->
  dispatch apis options request 0 (platforms request) [] w
    = (t, Normal rs, w1) ->
  Forall (fun r => success r = true) rs ->
  onSuccess options = Some f ->
  f (build_response request rs) w1 = (Throw e, w2) ->
  returns (onError options) ->
  let msg := match e with
             | ErrorObj message => message
             | NonError _ => "An unexpected error occurred while posting"
             end in
  exists tr w3,
    submitMultiPlatformPost apis options request w
      = (tr,
         Normal {| resp_success := false;
                   resp_results :=
                     map (fun p => {| platform := p; success := false;
                                      data := None; error := Some msg |})
                         (platforms request);
                   resp_message := msg |}, w3)
    /\ filter_map post_success_of tr = [false; true]
    /\ filter_map post_error_of tr = [None; Some msg]
    /\ error_notices tr = (if given (onError options) then [msg] else [])
    /\ timers tr = [(ClearPostError, 10000%Z)]
    /\ forall h,
         postSuccess (fire_all (timers tr) (cells (replay h tr))) = true
         /\ postError (fire_all (timers tr) (cells (replay h tr))) = None.
Proof.
  intros Hne Hok Hd Hall Hf He Hret. cbv zeta.
  pose proof (validated request w Hne Hok) as Hv.
  pose proof (settle_success_disturbed options request rs w1 f e w2
                Hall Hf He) as Hset.
  destruct (recover_returns options request e w2 Hret) as [w3 Hrec].
  rewrite Hrec in Hset. cbn [trace_of completion_of world_of fst snd] in Hset.
  exists (trace_of (submitMultiPlatformPost apis options request w)), w3.
  split.
  { rewrite (submit_valid apis options request w t rs w1 Hv Hd).
    rewrite Hset. reflexivity. }
  assert (Hobs : forall B (g : Event -> option B),
             (forall ev, in_loop ev = true -> g ev = None) ->
             filter_map g (trace_of (submitMultiPlatformPost apis options
                                       request w))
             = filter_map g (opening request)
               ++ filter_map g
                    (SetPostSuccess true
                       :: OnSuccess (build_response request rs)
                       :: alarm options e)
               ++ filter_map g closing).
  { intros B g Hg.
    rewrite (valid_run_around_loop g apis options request w t rs w1
               Hg Hv Hd).
    rewrite Hset. cbn [trace_of fst filter_map].
    now rewrite (Hg (SetUploadProgress 100) eq_refl). }
  assert (H1 : filter_map post_success_of
                 (trace_of (submitMultiPlatformPost apis options request w))
               = [false; true]).
  { rewrite Hobs by blind_to_loop. unfold alarm.
    destruct (given (onError options)); reflexivity. }
  assert (H2 : filter_map post_error_of
                 (trace_of (submitMultiPlatformPost apis options request w))
               = [None; Some (errorMessage e)]).
  { rewrite Hobs by blind_to_loop. unfold alarm.
    destruct (given (onError options)); reflexivity. }
  assert (H4 : timers
                 (trace_of (submitMultiPlatformPost apis options request w))
               = [(ClearPostError, 10000%Z)]).
  { unfold timers. rewrite Hobs by blind_to_loop. unfold alarm.
    destruct (given (onError options)); reflexivity. }
  split; [exact H1|]. split; [exact H2|]. split; [|split; [exact H4|]].
  - unfold error_notices. rewrite Hobs by blind_to_loop. unfold alarm.
    destruct (given (onError options)); reflexivity.
  - intros h. rewrite H4. cbn [fire_all fold_left fire fst postSuccess
                               postError setPostError].
    split; [|reflexivity].
    rewrite (replay_last postSuccess post_success_of perform_post_success).
    rewrite H1. reflexivity.
Qed.

Lemma throwing_onSuccess_reports_failure_witness :
  exists tr w3,
    submitMultiPlatformPost Sample.all_ok Scenario.success_handler_throws
      Scenario.x_then_linkedin tt
      = (tr,
         Normal {| resp_success := false;
                   resp_results :=
                     map (fun p => {| platform := p; success := false;
                                      data := None;
                                      error := Some "handler failed" |})
                         ["x"; "linkedin"];
                   resp_message := "handler failed" |}, w3)
    /\ filter_map post_success_of tr = [false; true]
    /\ filter_map post_error_of tr = [None; Some "handler failed"]
    /\ error_notices tr = ["handler failed"]
    /\ timers tr = [(ClearPostError, 10000%Z)]
    /\ forall h,
         postSuccess (fire_all (timers tr) (cells (replay h tr))) = true
         /\ postError (fire_all (timers tr) (cells (replay h tr))) = None.
Proof.
  apply (throwing_onSuccess_reports_failure Sample.all_ok
           Scenario.success_handler_throws Scenario.x_then_linkedin tt
           (trace_of (dispatch Sample.all_ok Scenario.success_handler_throws
                        Scenario.x_then_linkedin 0 ["x"; "linkedin"] [] tt))
           [Scenario2.x_result; Scenario2.linkedin_result] tt
           (Sample.throwing "handler failed") (ErrorObj "handler failed") tt).
  - discriminate.
  - reflexivity.
  - reflexivity.
  - repeat constructor.
  - reflexivity.
  - reflexivity.
  - intros f a w E. inversion E. reflexivity.
Defined.
